(** * vcf_parser: a shallow embedding of the variant-lookup pipeline

    The pipeline of [vcf_parser.py] reads variant records, asks a remote
    annotation service about each of them, merges the answer into the
    record's fields and writes the collection to a pickle dump and to a
    comma-separated report.

    Python values are embedded as the inductive type [pyval], exceptions as
    the type [exn] carried by the error monad [result], and the effects of
    [main] (the HTTP requests, the two output files and standard output) as
    an explicit [world] that is threaded through the run. *)

From Stdlib Require Import ZArith List String Ascii Bool Lia.
From Stdlib Require Import Floats.SpecFloat.
From Stdlib Require Import DecimalString.
Import ListNotations.

Local Open Scope string_scope.
Local Open Scope Z_scope.

(** ** Exceptions and the error monad *)

(** The exception classes the pipeline can meet.  [KeyboardInterrupt] and
    [SystemExit] derive from [BaseException] only; every other class
    derives from [Exception]. *)
Inductive exn : Type :=
  | TypeError
  | KeyError
  | IndexError
  | AttributeError
  | ZeroDivisionError
  | OverflowError
  | JSONDecodeError
  | RequestException
  | KeyboardInterrupt
  | SystemExit.

(** [isinstance(e, Exception)]: what an [except Exception] clause catches. *)
Definition is_Exception (e : exn) : bool :=
  match e with
  | KeyboardInterrupt | SystemExit => false
  | _ => true
  end.

Inductive result (A : Type) : Type :=
  | Ok (a : A)
  | Raise (e : exn).

Arguments Ok {A} a.
Arguments Raise {A} e.

Definition bind {A B : Type} (m : result A) (k : A -> result B) : result B :=
  match m with
  | Ok a => k a
  | Raise e => Raise e
  end.

Declare Scope py_scope.
Delimit Scope py_scope with py.
Notation "x <- m ;; k" := (bind m (fun x => k))
  (at level 61, m at next level, right associativity) : py_scope.
Local Open Scope py_scope.

(** ** Values *)

(** A Python [float] is an IEEE 754 binary64 number. *)
Definition float : Type := spec_float.

Definition prec : Z := 53.
Definition emax : Z := 1024.

(** The values that flow through the pipeline: the fields of a decoded
    record and whatever [response.json()] can produce.  A [str] is a
    [string] whose characters are code points below 256.  A [dict] keeps
    its items in insertion order; its keys are strings. *)
#[local] Set Warnings "-register-all".
Inductive pyval : Type :=
  | VNone
  | VBool (b : bool)
  | VInt (n : Z)
  | VFloat (f : float)
  | VStr (s : string)
  | VList (l : list pyval)
  | VDict (d : list (string * pyval)).

Definition dict : Type := list (string * pyval).

(** ** Dictionaries *)

(** [d.get(k)], as an option. *)
Fixpoint dict_lookup (k : string) (d : dict) : option pyval :=
  match d with
  | [] => None
  | (k', v) :: d' => if String.eqb k k' then Some v else dict_lookup k d'
  end.

(** [k in d] *)
Definition dict_mem (k : string) (d : dict) : bool :=
  match dict_lookup k d with
  | Some _ => true
  | None => false
  end.

(** [d.get(k, default)] *)
Definition dict_get (d : dict) (k : string) (default : pyval) : pyval :=
  match dict_lookup k d with
  | Some v => v
  | None => default
  end.

(** [d[k]] *)
Definition dict_item (d : dict) (k : string) : result pyval :=
  match dict_lookup k d with
  | Some v => Ok v
  | None => Raise KeyError
  end.

(** [d[k] = v]: an existing key keeps its place, a new key goes last. *)
Fixpoint dict_set (d : dict) (k : string) (v : pyval) : dict :=
  match d with
  | [] => [(k, v)]
  | (k', v') :: d' =>
      if String.eqb k k' then (k', v) :: d' else (k', v') :: dict_set d' k v
  end.

(** [{**a, **b}]: the items of [a], then those of [b] stored one by one. *)
Definition dict_merge (a b : dict) : dict :=
  fold_left (fun acc kv => dict_set acc (fst kv) (snd kv)) b a.

(** [v.get(k, default)] on an arbitrary value: only a dict has [get]. *)
Definition py_get (v : pyval) (k : string) (default : pyval) : result pyval :=
  match v with
  | VDict d => Ok (dict_get d k default)
  | _ => Raise AttributeError
  end.

(** ** Floats *)

Definition float_is_zero (f : float) : bool :=
  match f with
  | S754_zero _ => true
  | _ => false
  end.

(** The double nearest to the quotient of two integers, ties to even; the
    sign of a zero quotient follows the signs of the operands. *)
Definition nearest_quotient (a b : Z) : float :=
  let s := xorb (a <? 0) (b <? 0) in
  match Z.abs a, Z.abs b with
  | Zpos p, Zpos q =>
      SFdiv prec emax (S754_finite (a <? 0) p 0) (S754_finite (b <? 0) q 0)
  | Z0, Zpos _ => S754_zero s
  | _, _ => S754_nan
  end.

(** [n / d] rounded to the nearest integer, ties to even, for [0 <= n], [0 < d]. *)
Definition div_half_even (n d : Z) : Z :=
  let q := n / d in
  let r := n mod d in
  match 2 * r ?= d with
  | Lt => q
  | Gt => q + 1
  | Eq => if Z.even q then q else q + 1
  end.

(** [float(n)] for an int [n]: the bits below the 53 leading ones are
    rounded away, ties to even, and a magnitude beyond the largest double
    is an [OverflowError]. *)
Definition float_of_int (n : Z) : result float :=
  if n =? 0 then Ok (S754_zero false)
  else
    let a := Z.abs n in
    let digits := Z.log2 a + 1 in
    let shift := Z.max (digits - prec) 0 in
    let fill := Z.max (prec - digits) 0 in
    let q := div_half_even a (2 ^ shift) in
    let '(m, e) := if q =? 2 ^ prec then (2 ^ (prec - 1), shift + 1)
                   else (q * 2 ^ fill, shift - fill) in
    if emax - prec <? e then Raise OverflowError
    else Ok (S754_finite (n <? 0) (Z.to_pos m) e).

(** [a / b] on two ints. *)
Definition int_truediv (a b : Z) : result float :=
  if b =? 0 then Raise ZeroDivisionError
  else match nearest_quotient a b with
       | S754_infinity _ => Raise OverflowError
       | f => Ok f
       end.

(** [x / y] on two floats. *)
Definition float_truediv (x y : float) : result float :=
  if float_is_zero y then Raise ZeroDivisionError
  else Ok (SFdiv prec emax x y).

(** The view of a value as a number: a bool counts as the int 0 or 1. *)
Inductive num : Type :=
  | NInt (n : Z)
  | NFloat (f : float).

Definition as_num (v : pyval) : option num :=
  match v with
  | VBool b => Some (NInt (if b then 1 else 0))
  | VInt n => Some (NInt n)
  | VFloat f => Some (NFloat f)
  | _ => None
  end.

Definition num_to_float (x : num) : result float :=
  match x with
  | NInt n => float_of_int n
  | NFloat f => Ok f
  end.

(** [a / b] *)
Definition py_truediv (a b : pyval) : result float :=
  match as_num a, as_num b with
  | Some (NInt x), Some (NInt y) => int_truediv x y
  | Some x, Some y =>
      fx <- num_to_float x ;;
      fy <- num_to_float y ;;
      float_truediv fx fy
  | _, _ => Raise TypeError
  end.

(** [a - b] *)
Definition py_sub (a b : pyval) : result pyval :=
  match as_num a, as_num b with
  | Some (NInt x), Some (NInt y) => Ok (VInt (x - y))
  | Some x, Some y =>
      fx <- num_to_float x ;;
      fy <- num_to_float y ;;
      Ok (VFloat (SFsub prec emax fx fy))
  | _, _ => Raise TypeError
  end.

(** [a + n] for an int literal [n]. *)
Definition py_add_int (a : pyval) (n : Z) : result pyval :=
  match as_num a with
  | Some (NInt x) => Ok (VInt (x + n))
  | Some (NFloat f) =>
      fn <- float_of_int n ;;
      Ok (VFloat (SFadd prec emax f fn))
  | None => Raise TypeError
  end.

(** [x * n] for a float [x] and an int literal [n]. *)
Definition float_mul_int (x : float) (n : Z) : result float :=
  fn <- float_of_int n ;;
  Ok (SFmul prec emax x fn).

(** ** Text *)

(** [str(n)] for an int [n]. *)
Definition int_str (n : Z) : string :=
  NilZero.string_of_int (Z.to_int n).

Fixpoint repeat_string (n : nat) (s : string) : string :=
  match n with
  | O => ""
  | S n' => s ++ repeat_string n' s
  end.

(** [sep.join(parts)] *)
Fixpoint join (sep : string) (parts : list string) : string :=
  match parts with
  | [] => ""
  | [p] => p
  | p :: rest => p ++ sep ++ join sep rest
  end.

(** The one-character strings of [s], as iteration over a str yields them. *)
Fixpoint chars (s : string) : list string :=
  match s with
  | EmptyString => []
  | String c s' => String c EmptyString :: chars s'
  end.

(** [needle in s] on two strs: [needle] occurs in [s] as a substring. *)
Fixpoint is_substring (needle s : string) : bool :=
  if String.prefix needle s then true
  else match s with
       | EmptyString => false
       | String _ s' => is_substring needle s'
       end.

(** *** [round(x, ndigits)] on a float

    CPython rounds the exact value of [x] to [ndigits] decimal places with
    ties to even, and reads the decimal back as the nearest double. *)

Definition with_sign (s : bool) (f : float) : float :=
  match f with
  | S754_zero _ => S754_zero s
  | S754_infinity _ => S754_infinity s
  | S754_finite _ m e => S754_finite s m e
  | S754_nan => S754_nan
  end.

Definition NDIGITS_MAX : Z := 323.
Definition NDIGITS_MIN : Z := -308.

Definition float_round (x : float) (ndigits : Z) : result float :=
  match x with
  | S754_finite s m e =>
      if NDIGITS_MAX <? ndigits then Ok x
      else if ndigits <? NDIGITS_MIN then Ok (S754_zero s)
      else
        (* |x| * 10^ndigits = num / den, exactly *)
        let num := Zpos m * 2 ^ Z.max e 0 * 10 ^ Z.max ndigits 0 in
        let den := 2 ^ Z.max (- e) 0 * 10 ^ Z.max (- ndigits) 0 in
        let n := div_half_even num den in
        match with_sign s (nearest_quotient (n * 10 ^ Z.max (- ndigits) 0)
                                            (10 ^ Z.max ndigits 0)) with
        | S754_infinity _ => Raise OverflowError
        | r => Ok r
        end
  | _ => Ok x
  end.

(** *** [repr(x)] on a float

    The shortest string of decimal digits that reads back as [x], the
    closest to [x] when there are several and the one with an even last
    digit when two are as close, laid out in fixed notation when
    the decimal point falls within the digits' reach and in exponent
    notation otherwise. *)

(** Whether the decimal [d * 10^k] reads back as the double [m * 2^e]. *)
Definition reads_back (m : positive) (e : Z) (d k : Z) : bool :=
  match SFcompare (nearest_quotient (d * 10 ^ Z.max k 0) (10 ^ Z.max (- k) 0))
                  (S754_finite false m e) with
  | Some Eq => true
  | _ => false
  end.

(** The least [p'] from [p] on with [num / den < 10^p']. *)
Fixpoint decimal_point (fuel : nat) (num den p : Z) : Z :=
  match fuel with
  | O => p
  | S fuel' =>
      if num * 10 ^ Z.max (- p) 0 <? den * 10 ^ Z.max p 0 then p
      else decimal_point fuel' num den (p + 1)
  end.

(** The digits of the shortest decimal with at least [n] digits that reads
    back, and the exponent [k] of its last digit. *)
Fixpoint shortest_digits (fuel : nat) (m : positive) (e : Z) (decpt : Z) (n : Z)
  : Z * Z :=
  let num := Zpos m * 2 ^ Z.max e 0 in
  let den := 2 ^ Z.max (- e) 0 in
  let k := decpt - n in
  (* num / den / 10^k = sn / sd *)
  let sn := num * 10 ^ Z.max (- k) 0 in
  let sd := den * 10 ^ Z.max k 0 in
  let lo := sn / sd in
  let hi := if sn mod sd =? 0 then lo else lo + 1 in
  let ok_lo := reads_back m e lo k in
  let ok_hi := reads_back m e hi k in
  let nearest := match 2 * (sn mod sd) ?= sd with
                 | Lt => lo
                 | Gt => hi
                 | Eq => if Z.even lo then lo else hi
                 end in
  match fuel with
  | O => (nearest, k)
  | S fuel' =>
      if ok_lo && ok_hi then (nearest, k)
      else if ok_lo then (lo, k)
      else if ok_hi then (hi, k)
      else shortest_digits fuel' m e decpt (n + 1)
  end.

(** Drops the trailing zeros of a digit string, keeping one digit. *)
Fixpoint strip_zeros (fuel : nat) (d k : Z) : Z * Z :=
  match fuel with
  | O => (d, k)
  | S fuel' =>
      if (d mod 10 =? 0) && (10 <=? d) then strip_zeros fuel' (d / 10) (k + 1)
      else (d, k)
  end.

Definition float_repr (x : float) : string :=
  match x with
  | S754_nan => "nan"
  | S754_infinity s => if s then "-inf" else "inf"
  | S754_zero s => if s then "-0.0" else "0.0"
  | S754_finite s m e =>
      let num := Zpos m * 2 ^ Z.max e 0 in
      let den := 2 ^ Z.max (- e) 0 in
      let p0 := decimal_point 800 num den (-400) in
      let '(d0, k0) := shortest_digits 17 m e p0 1 in
      let '(d, k) := strip_zeros 20 d0 k0 in
      let ds := int_str d in
      let n := Z.of_nat (String.length ds) in
      let decpt := k + n in
      let body :=
        if (decpt <=? -4) || (16 <? decpt) then
          String.substring 0 1 ds
          ++ (if 1 <? n then "." ++ String.substring 1 (String.length ds - 1) ds else "")
          ++ "e" ++ (if decpt - 1 <? 0 then "-" else "+")
          ++ (if Z.abs (decpt - 1) <? 10 then "0" else "")
          ++ int_str (Z.abs (decpt - 1))
        else if decpt <=? 0 then
          "0." ++ repeat_string (Z.to_nat (- decpt)) "0" ++ ds
        else if decpt <? n then
          String.substring 0 (Z.to_nat decpt) ds ++ "."
          ++ String.substring (Z.to_nat decpt) (String.length ds - Z.to_nat decpt) ds
        else
          ds ++ repeat_string (Z.to_nat (decpt - n)) "0" ++ ".0"
      in
      (if s then "-" else "") ++ body
  end.

(** *** [repr] and [str] of a value *)

Definition quote1 : ascii := ascii_of_nat 39.
Definition quote2 : ascii := ascii_of_nat 34.
Definition backslash : ascii := ascii_of_nat 92.

Fixpoint has_char (c : ascii) (s : string) : bool :=
  match s with
  | EmptyString => false
  | String c' s' => Ascii.eqb c c' || has_char c s'
  end.

Definition hex_digit (n : nat) : ascii :=
  ascii_of_nat (if Nat.ltb n 10 then 48 + n else 87 + n).

(** [str.isprintable] on the code points below 256. *)
Definition printable (c : ascii) : bool :=
  let n := nat_of_ascii c in
  (Nat.leb 32 n && Nat.leb n 126)
  || (Nat.leb 161 n && Nat.leb n 172)
  || (Nat.leb 174 n).

Definition escape_char (quote c : ascii) : string :=
  let n := nat_of_ascii c in
  if Ascii.eqb c quote || Ascii.eqb c backslash then
    String backslash (String c EmptyString)
  else if Nat.eqb n 9 then String backslash "t"
  else if Nat.eqb n 10 then String backslash "n"
  else if Nat.eqb n 13 then String backslash "r"
  else if printable c then String c EmptyString
  else String backslash
         (String "x" (String (hex_digit (Nat.div n 16))
                        (String (hex_digit (Nat.modulo n 16)) EmptyString))).

Fixpoint escape (quote : ascii) (s : string) : string :=
  match s with
  | EmptyString => EmptyString
  | String c s' => escape_char quote c ++ escape quote s'
  end.

(** [repr(s)] for a str [s]. *)
Definition str_repr (s : string) : string :=
  let quote :=
    if has_char quote1 s && negb (has_char quote2 s) then quote2 else quote1 in
  String quote (escape quote s ++ String quote EmptyString).

Fixpoint py_repr (v : pyval) : string :=
  match v with
  | VNone => "None"
  | VBool b => if b then "True" else "False"
  | VInt n => int_str n
  | VFloat f => float_repr f
  | VStr s => str_repr s
  | VList l => "[" ++ join ", " (map py_repr l) ++ "]"
  | VDict d =>
      "{" ++ join ", "
               (map (fun kv => let '(k, x) := kv in str_repr k ++ ": " ++ py_repr x) d)
          ++ "}"
  end.

(** [str(v)], which is also what an f-string field without a format
    specification produces. *)
Definition py_str (v : pyval) : string :=
  match v with
  | VStr s => s
  | _ => py_repr v
  end.

(** ** Truth, membership, subscripts *)

(** [bool(v)] *)
Definition truthy (v : pyval) : bool :=
  match v with
  | VNone => false
  | VBool b => b
  | VInt n => negb (n =? 0)
  | VFloat f => negb (float_is_zero f)
  | VStr s => negb (String.eqb s "")
  | VList l => match l with [] => false | _ => true end
  | VDict d => match d with [] => false | _ => true end
  end.

Definition is_str (s : string) (v : pyval) : bool :=
  match v with
  | VStr s' => String.eqb s s'
  | _ => false
  end.

(** [needle in v] for a str [needle]. *)
Definition py_in (needle : string) (v : pyval) : result bool :=
  match v with
  | VStr s => Ok (is_substring needle s)
  | VList l => Ok (existsb (is_str needle) l)
  | VDict d => Ok (dict_mem needle d)
  | _ => Raise TypeError
  end.

(** [v[0]] *)
Definition py_first (v : pyval) : result pyval :=
  match v with
  | VList (x :: _) => Ok x
  | VStr (String c _) => Ok (VStr (String c EmptyString))
  | VList [] | VStr EmptyString => Raise IndexError
  | VDict _ => Raise KeyError
  | _ => Raise TypeError
  end.

Fixpoint all_strs (l : list pyval) : result (list string) :=
  match l with
  | [] => Ok []
  | VStr s :: l' => rest <- all_strs l' ;; Ok (s :: rest)
  | _ :: _ => Raise TypeError
  end.

(** [sep.join(v)] *)
Definition py_join (sep : string) (v : pyval) : result string :=
  match v with
  | VList l => parts <- all_strs l ;; Ok (join sep parts)
  | VStr s => Ok (join sep (chars s))
  | VDict d => Ok (join sep (map fst d))
  | _ => Raise TypeError
  end.

(** [{**a, **b}] where [b] is an arbitrary value: only a mapping unpacks. *)
Definition py_merge (a : dict) (b : pyval) : result dict :=
  match b with
  | VDict d => Ok (dict_merge a d)
  | _ => Raise TypeError
  end.

(** ** The pipeline *)

(** A record as the decoder exposes it. *)
Record VCFRecord : Type := {
  CHROM : string;
  POS : Z;
  REF : string;
  ALT : list string
}.

(** [seq[0]] on the list of alternate alleles. *)
Definition first_allele (alts : list string) : result string :=
  match alts with
  | [] => Raise IndexError
  | a :: _ => Ok a
  end.

Definition parse_vcf_entry (entry : VCFRecord) : result dict :=
  alt <- first_allele (ALT entry) ;;
  Ok [("chrom", VStr (CHROM entry));
      ("pos", VInt (POS entry));
      ("ref", VStr (REF entry));
      ("alt", VStr alt)].

(** The positional notation built by [query_ensembl] before it posts. *)
Definition spdi_notation (variant : dict) : result string :=
  pos <- dict_item variant "pos" ;;
  adjusted_position <- py_add_int pos 1 ;;
  chrom <- dict_item variant "chrom" ;;
  ref <- dict_item variant "ref" ;;
  alt <- dict_item variant "alt" ;;
  Ok (py_str chrom ++ ":" ++ py_str adjusted_position ++ ":"
      ++ py_str ref ++ ":" ++ py_str alt).

(** What [response.json()] does when it is called. *)
Inductive json_outcome : Type :=
  | JsonValue (v : pyval)
  | JsonRaises (e : exn).

Record response : Type := {
  status_code : Z;
  json : json_outcome
}.

(** What [requests.post] does when it is called. *)
Inductive post_outcome : Type :=
  | PostReturns (r : response)
  | PostRaises (e : exn).

(** The remote service: its answer to a request body, given the bodies it
    was sent before. *)
Definition service : Type := list pyval -> pyval -> post_outcome.

Inductive log_line : Type :=
  | ApiError (e : exn)
  | DataWritten (path : string).

(** The effects of a run.  The two output files are told apart by their
    role, the way [main] writes them: the run is modelled for two distinct
    output paths, and for files that open. *)
Record world : Type := {
  stdout : list log_line;
  requests : list pyval;
  pkl_file : option (list dict);
  csv_file : option (list (list pyval))
}.

Definition initial_world : world :=
  {| stdout := []; requests := []; pkl_file := None; csv_file := None |}.

Definition print (line : log_line) (w : world) : world :=
  {| stdout := (stdout w ++ [line])%list; requests := requests w;
     pkl_file := pkl_file w; csv_file := csv_file w |}.

Definition sent (payload : pyval) (w : world) : world :=
  {| stdout := stdout w; requests := (requests w ++ [payload])%list;
     pkl_file := pkl_file w; csv_file := csv_file w |}.

(** [pickle.dump(data, pkl_file)] into the freshly opened dump. *)
Definition pickle_dump (data : list dict) (w : world) : world :=
  {| stdout := stdout w; requests := requests w;
     pkl_file := Some data; csv_file := csv_file w |}.

(** [open(output_csv, 'w')] truncates the report.  The dump is another
    file: under one path for both it would be truncated as well, which is
    why what is stated of the dump after this step is stated for
    [output_csv <> output_pkl]. *)
Definition csv_open (w : world) : world :=
  {| stdout := stdout w; requests := requests w;
     pkl_file := pkl_file w; csv_file := Some [] |}.

(** [writer.writerow(row)] *)
Definition writerow (row : list pyval) (w : world) : world :=
  {| stdout := stdout w; requests := requests w;
     pkl_file := pkl_file w;
     csv_file := Some (match csv_file w with
                       | Some rows => rows ++ [row]
                       | None => [row]
                       end)%list |}.

Definition request_body (spdi : string) : pyval :=
  VDict [("variants", VList [VStr spdi])].

(** [except Exception as e: print(...); return {}], or the exception
    going on its way when the clause does not match. *)
Definition swallow (e : exn) (w : world) : result pyval * world :=
  if is_Exception e then (Ok (VDict []), print (ApiError e) w)
  else (Raise e, w).

Definition query_ensembl (net : service) (variant : dict) (w : world)
  : result pyval * world :=
  match spdi_notation variant with
  | Raise e => (Raise e, w)
  | Ok spdi =>
      let payload := request_body spdi in
      let w1 := sent payload w in
      match net (requests w) payload with
      | PostRaises e => swallow e w1
      | PostReturns r =>
          if status_code r =? 200 then
            match json r with
            | JsonValue v => (Ok v, w1)
            | JsonRaises e => swallow e w1
            end
          else (Ok (VDict []), w1)
      end
  end.

Definition header : list pyval :=
  map VStr ["chrom"; "pos"; "ref"; "alt"; "depth"; "alt_reads";
            "percent_alt_reads"; "percent_ref_reads"; "gene";
            "variant_effect"; "minor_allele"; "minor_allele_frequency";
            "somatic"; "id"].

(** [entry.get('INFO').get(k, '') if 'INFO' in entry else ''] *)
Definition info_field (entry : dict) (k : string) : result pyval :=
  if dict_mem "INFO" entry then py_get (dict_get entry "INFO" VNone) k (VStr "")
  else Ok (VStr "").

(** [str(round(x * 100, 2))] for the float [x] of a true division. *)
Definition percent (x : float) : result pyval :=
  p <- float_mul_int x 100 ;;
  r <- float_round p 2 ;;
  Ok (VStr (float_repr r)).

Definition extract_csv_fields (entry : dict) : result (list pyval) :=
  let chrom := dict_get entry "chrom" (VStr "") in
  let pos := dict_get entry "pos" (VStr "") in
  let ref := dict_get entry "ref" (VStr "") in
  let alt := dict_get entry "alt" (VStr "") in
  depth <- info_field entry "DP" ;;
  alt_reads <- info_field entry "AO" ;;
  percent_alt_reads <-
    (if truthy depth && truthy alt_reads then
       x <- py_truediv alt_reads depth ;; percent x
     else Ok (VStr "")) ;;
  percent_ref_reads <-
    (if truthy depth && truthy alt_reads then
       d <- py_sub depth alt_reads ;;
       x <- py_truediv d depth ;; percent x
     else Ok (VStr "")) ;;
  gene_effect <-
    (if dict_mem "transcript_consequences" entry
        && truthy (dict_get entry "transcript_consequences" VNone) then
       first <- py_first (dict_get entry "transcript_consequences" VNone) ;;
       gene <- py_get first "gene_symbol" (VStr "") ;;
       terms <- py_get first "consequence_terms" (VList []) ;;
       variant_effect <- py_join ", " terms ;;
       Ok (gene, VStr variant_effect)
     else Ok (VStr "", VStr "")) ;;
  minor_allele <- info_field entry "MA" ;;
  minor_allele_frequency <- info_field entry "MAF" ;;
  let id := dict_get entry "id" (VStr "") in
  found <- py_in "COSV" id ;;
  let somatic := VStr (if found then "1" else "") in
  Ok [chrom; pos; ref; alt; depth; alt_reads; percent_alt_reads;
      percent_ref_reads; fst gene_effect; snd gene_effect; minor_allele;
      minor_allele_frequency; somatic; id].

(** The first loop of [main]: one request per record, the merged entries
    gathered in [all_data]. *)
Fixpoint annotate (net : service) (records : list VCFRecord)
  (all_data : list dict) (w : world) : result (list dict) * world :=
  match records with
  | [] => (Ok all_data, w)
  | record :: rest =>
      match parse_vcf_entry record with
      | Raise e => (Raise e, w)
      | Ok vcf_data =>
          match query_ensembl net vcf_data w with
          | (Raise e, w1) => (Raise e, w1)
          | (Ok ensembl_data, w1) =>
              match py_merge vcf_data ensembl_data with
              | Raise e => (Raise e, w1)
              | Ok combined_data =>
                  annotate net rest (all_data ++ [combined_data])%list w1
              end
          end
      end
  end.

(** The second loop of [main]: one row per entry. *)
Fixpoint write_rows (all_data : list dict) (w : world) : result unit * world :=
  match all_data with
  | [] => (Ok tt, w)
  | entry :: rest =>
      match extract_csv_fields entry with
      | Raise e => (Raise e, w)
      | Ok row => write_rows rest (writerow row w)
      end
  end.

(** [main(vcf_file, output_csv, output_pkl)], where [records] are the
    records the decoder yields for [vcf_file]. *)
Definition main (net : service) (records : list VCFRecord)
  (output_csv output_pkl : string) (w : world) : result unit * world :=
  match annotate net records [] w with
  | (Raise e, w1) => (Raise e, w1)
  | (Ok all_data, w1) =>
      let w2 := pickle_dump all_data w1 in
      let w3 := writerow header (csv_open w2) in
      match write_rows all_data w3 with
      | (Raise e, w4) => (Raise e, w4)
      | (Ok _, w4) => (Ok tt, print (DataWritten output_csv) w4)
      end
  end.

(** *** [write_to_csv]

    The report as [csv.DictWriter] writes it: a row is looked up by column
    name, a missing column is left blank and a key that is no column is an
    error. *)

Definition fieldnames : list string :=
  ["chrom"; "pos"; "ref"; "alt"; "depth"; "alt_reads"; "percent_alt_reads";
   "percent_ref_reads"; "gene"; "variant_effect"; "minor_allele";
   "minor_allele_frequency"; "somatic"; "id"].

(** The keys of [rowdict] that are no column, in the order of its items. *)
Definition wrong_fields (rowdict : dict) : list string :=
  filter (fun k => negb (existsb (String.eqb k) fieldnames)) (map fst rowdict).

(** What [DictWriter.writerow] does with a dict: the [ValueError] of a
    row with keys that are no columns, or the cells handed to the writer. *)
Inductive write_outcome : Type :=
  | Written
  | RaisesValueError (fields : list string).

Definition dict_to_list (rowdict : dict) : list string + list pyval :=
  match wrong_fields rowdict with
  | [] => inr (map (fun key => dict_get rowdict key (VStr "")) fieldnames)
  | fields => inl fields
  end.

Fixpoint write_dict_rows (data : list dict) (w : world) : write_outcome * world :=
  match data with
  | [] => (Written, w)
  | row :: rest =>
      match dict_to_list row with
      | inl fields => (RaisesValueError fields, w)
      | inr cells => write_dict_rows rest (writerow cells w)
      end
  end.

Definition write_to_csv (data : list dict) (filename : string) (w : world)
  : write_outcome * world :=
  write_dict_rows data (writerow (map VStr fieldnames) (csv_open w)).

(** The cells [DictWriter] writes for a row. *)
Definition cells_by_name (rowdict : dict) : list pyval :=
  map (fun key => dict_get rowdict key (VStr "")) fieldnames.

(** The exception that [query_ensembl] swallows on an answer of the
    service, if any: an [Exception] raised by the POST, or by the parsing
    of a 200 response. *)
Definition swallowed_by (o : post_outcome) : list exn :=
  match o with
  | PostRaises e => if is_Exception e then [e] else []
  | PostReturns r =>
      if status_code r =? 200 then
        match json r with
        | JsonRaises e => if is_Exception e then [e] else []
        | JsonValue _ => []
        end
      else []
  end.

(** The exceptions swallowed over the requests [bodies], sent one after
    the other to a service that had received [history] before. *)
Fixpoint swallowed (net : service) (history bodies : list pyval) : list exn :=
  match bodies with
  | [] => []
  | body :: rest =>
      (swallowed_by (net history body)
       ++ swallowed net (history ++ [body]) rest)%list
  end.

(** The runs of the first loop that reach its end: the entries gathered
    for [records] from the world [w], and the world they leave. *)
Inductive annotated (net : service)
  : list VCFRecord -> world -> list dict -> world -> Prop :=
  | annotated_nil (w : world) : annotated net [] w [] w
  | annotated_cons (record : VCFRecord) (rest : list VCFRecord)
      (vcf_data ensembl_data : dict) (w w1 w2 : world) (entries : list dict) :
      parse_vcf_entry record = Ok vcf_data ->
      query_ensembl net vcf_data w = (Ok (VDict ensembl_data), w1) ->
      annotated net rest w1 entries w2 ->
      annotated net (record :: rest) w
        (dict_merge vcf_data ensembl_data :: entries) w2.


(** A mapping holds each of its keys once. *)
Definition unique_keys (d : dict) : Prop := NoDup (map fst d).

(** [entry] is the merge of the normalized [record] with a mapping the
    service answered for it, and on every key the two share it holds the
    service's value. *)
Definition annotation_wins (net : service) (record : VCFRecord) (entry : dict)
  : Prop :=
  exists vcf_data ensembl_data,
    parse_vcf_entry record = Ok vcf_data
    /\ (exists w w', query_ensembl net vcf_data w = (Ok (VDict ensembl_data), w'))
    /\ entry = dict_merge vcf_data ensembl_data
    /\ forall k v_variant v_annotation,
         unique_keys ensembl_data ->
         dict_lookup k vcf_data = Some v_variant ->
         dict_lookup k ensembl_data = Some v_annotation ->
         dict_lookup k entry = Some v_annotation.

(** The entry has a depth and an alt-read count, and both are truthy. *)
Definition counts_usable (entry : dict) : Prop :=
  exists info depth alt_reads,
    dict_lookup "INFO" entry = Some (VDict info)
    /\ dict_lookup "DP" info = Some depth
    /\ dict_lookup "AO" info = Some alt_reads
    /\ truthy depth = true
    /\ truthy alt_reads = true.

(** ** Sample inputs *)

Definition mock_entry : VCFRecord :=
  {| CHROM := "1"; POS := 1000; REF := "A"; ALT := ["G"] |}.

Definition variant_1_1000000_G_A : dict :=
  [("chrom", VStr "1"); ("pos", VInt 1000000); ("ref", VStr "G");
   ("alt", VStr "A")].

(** A service that is down. *)
Definition unreachable : service := fun _ _ => PostRaises RequestException.

(** A service that answers 404. *)
Definition not_found : service :=
  fun _ _ => PostReturns {| status_code := 404; json := JsonRaises JSONDecodeError |}.

(** A service that answers 200 with a JSON array, the way the annotation
    endpoint does. *)
Definition answers_array : service :=
  fun _ _ => PostReturns {| status_code := 200; json := JsonValue (VList []) |}.

(** A service that answers 200 with a mapping that has an [id] and a
    [chrom] of its own. *)
Definition answers_mapping : service :=
  fun _ _ =>
    PostReturns
      {| status_code := 200;
         json := JsonValue (VDict [("id", VStr "COSV57"); ("chrom", VStr "chr1")]) |}.

Definition second_entry : VCFRecord :=
  {| CHROM := "2"; POS := 2000; REF := "C"; ALT := ["T"; "G"] |}.

Definition no_alt_entry : VCFRecord :=
  {| CHROM := "3"; POS := 3000; REF := "T"; ALT := [] |}.

(** The entry of the specification's example, its counts as strings. *)
Definition entry_string_counts : dict :=
  [("INFO", VDict [("DP", VStr "100"); ("AO", VStr "25")])].

(** The same entry with its counts as integers. *)
Definition entry_int_counts : dict :=
  [("INFO", VDict [("DP", VInt 100); ("AO", VInt 25)])].

Definition entry_zero_depth : dict :=
  [("chrom", VStr "1"); ("INFO", VDict [("DP", VInt 0); ("AO", VInt 25)])].

Definition entry_somatic : dict :=
  [("chrom", VStr "1"); ("id", VStr "rs1,COSV57")].

(** The patched [requests.post] of the repository's test. *)
Definition mock_post : service :=
  fun _ _ =>
    PostReturns
      {| status_code := 200;
         json := JsonValue (VDict [("some_key", VStr "some_value")]) |}.

(** A service that answers 200 with a body that is no JSON. *)
Definition garbled : service :=
  fun _ _ => PostReturns {| status_code := 200; json := JsonRaises JSONDecodeError |}.

(** A request that the user interrupts. *)
Definition interrupted : service := fun _ _ => PostRaises KeyboardInterrupt.


(** A service whose first answer is an empty mapping and whose later
    answers carry an [INFO] that is null. *)
Definition answers_null_info : service :=
  fun history _ =>
    match history with
    | [] => PostReturns {| status_code := 200; json := JsonValue (VDict []) |}
    | _ => PostReturns {| status_code := 200;
                          json := JsonValue (VDict [("INFO", VNone)]) |}
    end.

(** An entry annotated with two transcript consequences. *)
Definition entry_with_consequences : dict :=
  [("chrom", VStr "1"); ("pos", VInt 1000); ("ref", VStr "A"); ("alt", VStr "G");
   ("transcript_consequences",
    VList [VDict [("gene_symbol", VStr "BRCA2");
                  ("consequence_terms",
                   VList [VStr "missense_variant"; VStr "splice_region_variant"])];
           VDict [("gene_symbol", VStr "ZAR1L");
                  ("consequence_terms", VList [VStr "intron_variant"])]])].

(** An entry whose depth is beyond every double. *)
Definition entry_huge_depth : dict :=
  [("INFO", VDict [("DP", VInt (10 ^ 400));
                   ("AO", VFloat (S754_finite false 5 (-1)))])].

(** * Properties *)

(** ** Dictionaries *)

Lemma dict_lookup_set (k k' : string) (d : dict) (v : pyval) :
  dict_lookup k (dict_set d k' v)
  = if String.eqb k k' then Some v else dict_lookup k d.
Proof.
  induction d as [| [k0 v0] d IH]; simpl.
  - reflexivity.
  - destruct (String.eqb_spec k' k0) as [-> | Hk0]; simpl.
    + destruct (String.eqb k k0); reflexivity.
    + rewrite IH. destruct (String.eqb_spec k k0) as [-> | _].
      * destruct (String.eqb_spec k0 k') as [E | _]; [congruence | reflexivity].
      * reflexivity.
Qed.

Lemma dict_lookup_not_in (k : string) (d : dict) :
  ~ In k (map fst d) -> dict_lookup k d = None.
Proof.
  induction d as [| [k0 v0] d IH]; simpl; intros Hin.
  - reflexivity.
  - destruct (String.eqb_spec k k0) as [-> | _].
    + exfalso. apply Hin. now left.
    + apply IH. intros H. apply Hin. now right.
Qed.

Lemma dict_merge_cons (a : dict) (k : string) (v : pyval) (b : dict) :
  dict_merge a ((k, v) :: b) = dict_merge (dict_set a k v) b.
Proof. reflexivity. Qed.

Lemma dict_merge_nil (a : dict) : dict_merge a [] = a.
Proof. reflexivity. Qed.

Lemma dict_lookup_merge_none (k : string) (b a : dict) :
  dict_lookup k b = None ->
  dict_lookup k (dict_merge a b) = dict_lookup k a.
Proof.
  revert a. induction b as [| [k0 v0] b IH]; intros a Hb.
  - reflexivity.
  - simpl in Hb. rewrite dict_merge_cons.
    destruct (String.eqb k k0) eqn:E; [discriminate |].
    rewrite (IH _ Hb), dict_lookup_set, E. reflexivity.
Qed.

(** A key of the right-hand mapping gets the right-hand value. *)
Lemma dict_lookup_merge (k : string) (v : pyval) (b a : dict) :
  NoDup (map fst b) ->
  dict_lookup k b = Some v ->
  dict_lookup k (dict_merge a b) = Some v.
Proof.
  revert a. induction b as [| [k0 v0] b IH]; intros a Hnd Hb.
  - discriminate.
  - simpl in Hb, Hnd. rewrite dict_merge_cons.
    inversion Hnd as [| ? ? Hnotin Hnd']; subst.
    destruct (String.eqb_spec k k0) as [-> | Hne].
    + injection Hb as <-.
      rewrite (dict_lookup_merge_none _ _ _ (dict_lookup_not_in _ _ Hnotin)).
      rewrite dict_lookup_set, String.eqb_refl. reflexivity.
    + now apply IH.
Qed.

(** ** Substrings *)

Lemma prefix_spec (p s : string) :
  String.prefix p s = true <-> exists t, s = p ++ t.
Proof.
  revert s. induction p as [| c p IH]; intros s; simpl.
  - destruct s; simpl; (split; [intros _; eexists; reflexivity | intros _; reflexivity]).
  - destruct s as [| c' s]; simpl.
    + split; [discriminate | intros [t Ht]; discriminate].
    + destruct (ascii_dec c c') as [-> | Hne].
      * rewrite IH. split; intros [t Ht]; exists t; [now rewrite Ht | now injection Ht].
      * split; [discriminate | intros [t Ht]; injection Ht; congruence].
Qed.

Lemma is_substring_eq (needle s : string) :
  is_substring needle s
  = if String.prefix needle s then true
    else match s with
         | EmptyString => false
         | String _ s' => is_substring needle s'
         end.
Proof. destruct s; reflexivity. Qed.

Lemma is_substring_spec (needle s : string) :
  is_substring needle s = true <-> exists a b, s = a ++ needle ++ b.
Proof.
  induction s as [| c s IH]; rewrite is_substring_eq.
  - destruct (String.prefix needle "") eqn:P.
    + split; [intros _ | reflexivity].
      apply prefix_spec in P as [t Ht]. now exists "", t.
    + split; [discriminate |].
      intros [a [b Hab]]. destruct a; simpl in Hab; [| discriminate].
      assert (String.prefix needle "" = true) by (apply prefix_spec; now exists b).
      congruence.
  - destruct (String.prefix needle (String c s)) eqn:P.
    + split; [intros _ | reflexivity].
      apply prefix_spec in P as [t Ht]. now exists "", t.
    + rewrite IH. split.
      * intros [a [b Hab]]. exists (String c a), b. simpl. now rewrite Hab.
      * intros [a [b Hab]]. destruct a as [| c' a]; simpl in Hab.
        -- assert (String.prefix needle (String c s) = true)
             by (apply prefix_spec; now exists b).
           congruence.
        -- injection Hab as _ Hs. now exists a, b.
Qed.

(** ** The Variant Normalizer *)

(** C5.  A record with at least one alternate allele is normalized to a
    mapping with the four keys [chrom], [pos], [ref] and [alt], where [alt]
    is the first alternate allele and the other three are the record's
    [CHROM], [POS] and [REF] as they are. *)
Theorem parse_vcf_entry_copies_fields
  (entry : VCFRecord) (first : string) (others : list string) :
  ALT entry = first :: others ->
  exists variant,
    parse_vcf_entry entry = Ok variant
    /\ map fst variant = ["chrom"; "pos"; "ref"; "alt"]
    /\ dict_item variant "alt" = Ok (VStr first)
    /\ dict_item variant "chrom" = Ok (VStr (CHROM entry))
    /\ dict_item variant "pos" = Ok (VInt (POS entry))
    /\ dict_item variant "ref" = Ok (VStr (REF entry)).
Proof.
  intros Halt. unfold parse_vcf_entry. rewrite Halt. simpl.
  eexists. split; [reflexivity |]. repeat split.
Qed.

Lemma parse_vcf_entry_copies_fields_witness :
  exists variant,
    parse_vcf_entry mock_entry = Ok variant
    /\ map fst variant = ["chrom"; "pos"; "ref"; "alt"]
    /\ dict_item variant "alt" = Ok (VStr "G")
    /\ dict_item variant "chrom" = Ok (VStr "1")
    /\ dict_item variant "pos" = Ok (VInt 1000)
    /\ dict_item variant "ref" = Ok (VStr "A").
Proof.
  exact (parse_vcf_entry_copies_fields mock_entry "G" [] eq_refl).
Defined.

(** ** The Annotation Client *)

Lemma swallow_requests (e : exn) (w : world) :
  requests (snd (swallow e w)) = requests w.
Proof. unfold swallow. destruct (is_Exception e); reflexivity. Qed.

Lemma swallow_files (e : exn) (w : world) :
  pkl_file (snd (swallow e w)) = pkl_file w
  /\ csv_file (snd (swallow e w)) = csv_file w.
Proof. unfold swallow. destruct (is_Exception e); split; reflexivity. Qed.

Lemma swallow_Exception (e : exn) (w : world) :
  is_Exception e = true -> swallow e w = (Ok (VDict []), print (ApiError e) w).
Proof. unfold swallow. now intros ->. Qed.

(** Once the notation is built, exactly one request goes out. *)
Lemma query_ensembl_requests (net : service) (variant : dict) (w : world)
  (spdi : string) :
  spdi_notation variant = Ok spdi ->
  requests (snd (query_ensembl net variant w))
  = (requests w ++ [request_body spdi])%list.
Proof.
  intros Hspdi. unfold query_ensembl. rewrite Hspdi.
  destruct (net (requests w) (request_body spdi)) as [r | e].
  - destruct (status_code r =? 200); [| reflexivity].
    destruct (json r) as [v | e]; [reflexivity |].
    now rewrite swallow_requests.
  - now rewrite swallow_requests.
Qed.

Lemma query_ensembl_files (net : service) (variant : dict) (w : world) :
  pkl_file (snd (query_ensembl net variant w)) = pkl_file w
  /\ csv_file (snd (query_ensembl net variant w)) = csv_file w.
Proof.
  unfold query_ensembl.
  destruct (spdi_notation variant) as [spdi | e]; [| now split].
  destruct (net (requests w) (request_body spdi)) as [r | e].
  - destruct (status_code r =? 200); [| now split].
    destruct (json r) as [v | e]; [now split |].
    apply (swallow_files e (sent (request_body spdi) w)).
  - apply (swallow_files e (sent (request_body spdi) w)).
Qed.

(** The notation of a variant whose fields have the types of the data
    model. *)
Lemma spdi_notation_variant (variant : dict) (chrom ref alt : string) (pos : Z) :
  dict_lookup "chrom" variant = Some (VStr chrom) ->
  dict_lookup "pos" variant = Some (VInt pos) ->
  dict_lookup "ref" variant = Some (VStr ref) ->
  dict_lookup "alt" variant = Some (VStr alt) ->
  spdi_notation variant
  = Ok (chrom ++ ":" ++ int_str (pos + 1) ++ ":" ++ ref ++ ":" ++ alt).
Proof.
  intros Hc Hp Hr Ha. unfold spdi_notation, dict_item.
  rewrite Hc, Hp, Hr, Ha. reflexivity.
Qed.

(** C3.  For a variant with a string [chrom], an integer [pos] and string
    [ref] and [alt], the client builds the notation
    [chrom:pos+1:ref:alt], the position written in decimal after being
    incremented by one, and posts it as the only element of [variants]. *)
Theorem query_ensembl_builds_notation
  (net : service) (w : world) (variant : dict)
  (chrom ref alt : string) (pos : Z) :
  dict_lookup "chrom" variant = Some (VStr chrom) ->
  dict_lookup "pos" variant = Some (VInt pos) ->
  dict_lookup "ref" variant = Some (VStr ref) ->
  dict_lookup "alt" variant = Some (VStr alt) ->
  spdi_notation variant
  = Ok (chrom ++ ":" ++ int_str (pos + 1) ++ ":" ++ ref ++ ":" ++ alt)
  /\ requests (snd (query_ensembl net variant w))
     = (requests w
        ++ [VDict [("variants",
                    VList [VStr (chrom ++ ":" ++ int_str (pos + 1) ++ ":"
                                 ++ ref ++ ":" ++ alt)])]])%list.
Proof.
  intros Hc Hp Hr Ha.
  pose proof (spdi_notation_variant _ _ _ _ _ Hc Hp Hr Ha) as Hspdi.
  split; [exact Hspdi |].
  now rewrite (query_ensembl_requests _ _ _ _ Hspdi).
Qed.

Lemma query_ensembl_builds_notation_witness :
  spdi_notation variant_1_1000000_G_A = Ok "1:1000001:G:A"
  /\ requests (snd (query_ensembl unreachable variant_1_1000000_G_A initial_world))
     = [VDict [("variants", VList [VStr "1:1000001:G:A"])]].
Proof.
  exact (query_ensembl_builds_notation unreachable initial_world
           variant_1_1000000_G_A "1" "G" "A" 1000000
           eq_refl eq_refl eq_refl eq_refl).
Defined.

(** The two tests of the repository. *)
Example test_parse_vcf_entry :
  parse_vcf_entry mock_entry
  = Ok [("chrom", VStr "1"); ("pos", VInt 1000); ("ref", VStr "A");
        ("alt", VStr "G")].
Proof. reflexivity. Qed.

Example test_query_ensembl :
  fst (query_ensembl mock_post variant_1_1000000_G_A initial_world)
  = Ok (VDict [("some_key", VStr "some_value")]).
Proof. reflexivity. Qed.

(** A 200 response hands its parsed body over as it is. *)
Lemma query_ensembl_200 (net : service) (variant : dict) (w : world)
  (spdi : string) (r : response) (v : pyval) :
  spdi_notation variant = Ok spdi ->
  net (requests w) (request_body spdi) = PostReturns r ->
  status_code r = 200 ->
  json r = JsonValue v ->
  query_ensembl net variant w = (Ok v, sent (request_body spdi) w).
Proof.
  intros Hspdi Hnet Hstatus Hjson. unfold query_ensembl.
  now rewrite Hspdi, Hnet, Hstatus, Hjson.
Qed.

(** Any other status yields the empty mapping. *)
Lemma query_ensembl_not_200 (net : service) (variant : dict) (w : world)
  (spdi : string) (r : response) :
  spdi_notation variant = Ok spdi ->
  net (requests w) (request_body spdi) = PostReturns r ->
  status_code r <> 200 ->
  query_ensembl net variant w = (Ok (VDict []), sent (request_body spdi) w).
Proof.
  intros Hspdi Hnet Hstatus. unfold query_ensembl. rewrite Hspdi, Hnet.
  destruct (Z.eqb_spec (status_code r) 200); [contradiction | reflexivity].
Qed.



(** ** The two loops of [main] *)

Lemma parse_vcf_entry_ok (record : VCFRecord) (variant : dict) :
  parse_vcf_entry record = Ok variant ->
  exists alt others,
    ALT record = alt :: others
    /\ variant = [("chrom", VStr (CHROM record)); ("pos", VInt (POS record));
                  ("ref", VStr (REF record)); ("alt", VStr alt)].
Proof.
  unfold parse_vcf_entry. destruct (ALT record) as [| alt others]; simpl.
  - discriminate.
  - intros H. injection H as <-. now exists alt, others.
Qed.


Lemma parsed_notation (record : VCFRecord) (variant : dict) :
  parse_vcf_entry record = Ok variant ->
  exists spdi, spdi_notation variant = Ok spdi.
Proof.
  intros H. apply parse_vcf_entry_ok in H as [alt [others [_ ->]]].
  eexists. reflexivity.
Qed.

(** A bare variant, with nothing merged into it, gives a row with the four
    variant fields and ten blanks. *)
Lemma extract_csv_fields_parsed (record : VCFRecord) (variant : dict) :
  parse_vcf_entry record = Ok variant ->
  exists row, extract_csv_fields variant = Ok row.
Proof.
  intros H. apply parse_vcf_entry_ok in H as [alt [others [_ ->]]].
  eexists. reflexivity.
Qed.

Lemma annotate_ok (net : service) (records : list VCFRecord) :
  forall (acc : list dict) (w : world) (all_data : list dict) (w' : world),
    annotate net records acc w = (Ok all_data, w') ->
    exists entries,
      all_data = (acc ++ entries)%list /\ annotated net records w entries w'.
Proof.
  induction records as [| record rest IH]; simpl; intros acc w all_data w' H.
  - injection H as <- <-. exists []. split; [now rewrite app_nil_r | constructor].
  - destruct (parse_vcf_entry record) as [vcf_data | e] eqn:Hparse;
      [| discriminate].
    destruct (query_ensembl net vcf_data w) as [[ensembl_data | e] w1] eqn:Hq;
      [| discriminate].
    destruct ensembl_data as [| | | | | | d]; simpl in H; try discriminate.
    apply IH in H as [entries [-> Hrest]].
    exists (dict_merge vcf_data d :: entries). split.
    + now rewrite <- app_assoc.
    + econstructor; eassumption.
Qed.

Lemma annotated_annotate (net : service) (records : list VCFRecord)
  (w : world) (entries : list dict) (w' : world) :
  annotated net records w entries w' ->
  forall acc, annotate net records acc w = (Ok (acc ++ entries)%list, w').
Proof.
  induction 1 as [w | record rest vcf_data d w w1 w2 entries Hparse Hq _ IH];
    intros acc; simpl.
  - now rewrite app_nil_r.
  - rewrite Hparse, Hq. simpl. rewrite IH, <- app_assoc. reflexivity.
Qed.

Lemma annotated_length (net : service) (records : list VCFRecord)
  (w : world) (entries : list dict) (w' : world) :
  annotated net records w entries w' ->
  List.length entries = List.length records.
Proof. induction 1; simpl; congruence. Qed.

(** The first loop touches neither output file. *)
Lemma annotate_files (net : service) (records : list VCFRecord) :
  forall (acc : list dict) (w : world),
    pkl_file (snd (annotate net records acc w)) = pkl_file w
    /\ csv_file (snd (annotate net records acc w)) = csv_file w.
Proof.
  induction records as [| record rest IH]; simpl; intros acc w.
  - now split.
  - destruct (parse_vcf_entry record) as [vcf_data | e]; [| now split].
    pose proof (query_ensembl_files net vcf_data w) as Hfiles.
    destruct (query_ensembl net vcf_data w) as [[ensembl_data | e] w1];
      simpl in Hfiles; [| exact Hfiles].
    destruct (py_merge vcf_data ensembl_data) as [combined | e];
      [| exact Hfiles].
    destruct (IH (acc ++ [combined])%list w1) as [Hp Hc].
    destruct Hfiles as [Hp1 Hc1]. split; congruence.
Qed.

Lemma write_rows_ok (entries : list dict) :
  forall (w w' : world),
    write_rows entries w = (Ok tt, w') ->
    exists rows,
      Forall2 (fun entry row => extract_csv_fields entry = Ok row) entries rows
      /\ pkl_file w' = pkl_file w
      /\ stdout w' = stdout w
      /\ forall rows0, csv_file w = Some rows0 ->
                       csv_file w' = Some (rows0 ++ rows)%list.
Proof.
  induction entries as [| entry rest IH]; simpl; intros w w' H.
  - injection H as <-. exists []. repeat split; try constructor.
    intros rows0 ->. now rewrite app_nil_r.
  - destruct (extract_csv_fields entry) as [row | e] eqn:Hrow; [| discriminate].
    apply IH in H as [rows [Hrows [Hpkl [Hout Hcsv]]]].
    exists (row :: rows). repeat split; try assumption.
    + now constructor.
    + intros rows0 H0. rewrite (Hcsv (rows0 ++ [row])%list).
      * now rewrite <- app_assoc.
      * simpl. now rewrite H0.
Qed.

Lemma write_rows_total (entries : list dict) :
  Forall (fun entry => exists row, extract_csv_fields entry = Ok row) entries ->
  forall w, exists w', write_rows entries w = (Ok tt, w').
Proof.
  induction 1 as [| entry rest [row Hrow] _ IH]; simpl; intros w.
  - now exists w.
  - rewrite Hrow. apply IH.
Qed.

(** What a completed run leaves behind. *)
Lemma main_ok (net : service) (records : list VCFRecord)
  (output_csv output_pkl : string) (w w' : world) :
  main net records output_csv output_pkl w = (Ok tt, w') ->
  exists entries rows w1,
    annotated net records w entries w1
    /\ Forall2 (fun entry row => extract_csv_fields entry = Ok row) entries rows
    /\ pkl_file w' = Some entries
    /\ csv_file w' = Some (header :: rows).
Proof.
  unfold main. intros H.
  destruct (annotate net records [] w) as [[all_data | e] w1] eqn:Hloop;
    [| discriminate].
  apply annotate_ok in Hloop as [entries [-> Hann]]. simpl in H.
  destruct (write_rows entries _) as [[[] | e] w4] eqn:Hrows; [| discriminate].
  injection H as <-.
  apply write_rows_ok in Hrows as [rows [Hrows [Hpkl [_ Hcsv]]]].
  exists entries, rows, w1.
  split; [exact Hann |]. split; [exact Hrows |]. split; simpl.
  - now rewrite Hpkl.
  - now apply (Hcsv [header]).
Qed.

Lemma annotate_app (net : service) (before : list VCFRecord) (w : world)
  (entries : list dict) (w1 : world) :
  annotated net before w entries w1 ->
  forall rest acc,
    annotate net (before ++ rest) acc w = annotate net rest (acc ++ entries)%list w1.
Proof.
  induction 1 as [w | record rest' vcf_data d w w1 w2 entries Hparse Hq _ IH];
    intros rest acc; simpl.
  - now rewrite app_nil_r.
  - rewrite Hparse, Hq. simpl. rewrite IH, <- app_assoc. reflexivity.
Qed.

Lemma annotate_raises_at (net : service) (record : VCFRecord)
  (after : list VCFRecord) :
  ALT record = [] ->
  forall before acc w,
    exists e, fst (annotate net (before ++ record :: after) acc w) = Raise e.
Proof.
  intros Halt. induction before as [| r before IH]; intros acc w; simpl.
  - unfold parse_vcf_entry. rewrite Halt. simpl. now exists IndexError.
  - destruct (parse_vcf_entry r) as [vcf_data | e]; [| now exists e].
    destruct (query_ensembl net vcf_data w) as [[ensembl_data | e] w1];
      [| now exists e].
    destruct (py_merge vcf_data ensembl_data) as [combined | e];
      [| now exists e].
    apply IH.
Qed.

Lemma main_raises (net : service) (records : list VCFRecord)
  (output_csv output_pkl : string) (w : world) (e : exn) :
  fst (annotate net records [] w) = Raise e ->
  exists w',
    main net records output_csv output_pkl w = (Raise e, w')
    /\ pkl_file w' = pkl_file w
    /\ csv_file w' = csv_file w.
Proof.
  intros H. unfold main.
  pose proof (annotate_files net records [] w) as Hfiles.
  destruct (annotate net records [] w) as [[all_data | e'] w1];
    simpl in H; [discriminate |].
  injection H as ->. now exists w1.
Qed.

Lemma py_merge_not_mapping (a : dict) (b : pyval) :
  (forall d, b <> VDict d) -> py_merge a b = Raise TypeError.
Proof.
  intros H. destruct b; try reflexivity. now destruct (H d).
Qed.

Lemma parsed_rows (records : list VCFRecord) (entries : list dict) :
  Forall2 (fun record entry => parse_vcf_entry record = Ok entry) records entries ->
  Forall (fun entry => exists row, extract_csv_fields entry = Ok row) entries.
Proof.
  induction 1 as [| record entry rest entries' Hparse _ IH]; constructor.
  - exact (extract_csv_fields_parsed _ _ Hparse).
  - exact IH.
Qed.



(** C10.  The parsed body of a 200 response is returned whatever it is.
    When it is not a mapping, the merge in [main] raises [TypeError] on
    that record: the run ends there with the exception, and neither output
    file has been written. *)
Theorem query_ensembl_body_not_validated (net : service) :
  (forall variant w spdi r body,
      spdi_notation variant = Ok spdi ->
      net (requests w) (request_body spdi) = PostReturns r ->
      status_code r = 200 ->
      json r = JsonValue body ->
      fst (query_ensembl net variant w) = Ok body)
  /\ (forall record rest output_csv output_pkl w variant spdi r body,
         parse_vcf_entry record = Ok variant ->
         spdi_notation variant = Ok spdi ->
         net (requests w) (request_body spdi) = PostReturns r ->
         status_code r = 200 ->
         json r = JsonValue body ->
         (forall d, body <> VDict d) ->
         exists w',
           main net (record :: rest) output_csv output_pkl w
           = (Raise TypeError, w')
           /\ pkl_file w' = pkl_file w
           /\ csv_file w' = csv_file w).
Proof.
  split.
  - intros variant w spdi r body Hspdi Hnet Hstatus Hjson.
    now rewrite (query_ensembl_200 _ _ _ _ _ _ Hspdi Hnet Hstatus Hjson).
  - intros record rest output_csv output_pkl w variant spdi r body
      Hparse Hspdi Hnet Hstatus Hjson Hbody.
    apply main_raises. simpl. rewrite Hparse.
    rewrite (query_ensembl_200 _ _ _ _ _ _ Hspdi Hnet Hstatus Hjson).
    now rewrite (py_merge_not_mapping _ _ Hbody).
Qed.

Lemma query_ensembl_body_not_validated_witness :
  fst (query_ensembl answers_array variant_1_1000000_G_A initial_world)
  = Ok (VList [])
  /\ exists w',
       main answers_array [mock_entry; second_entry] "report.csv" "report.pkl"
         initial_world = (Raise TypeError, w')
       /\ pkl_file w' = None
       /\ csv_file w' = None.
Proof.
  destruct (query_ensembl_body_not_validated answers_array) as [Hbody Hrun].
  split.
  - apply (Hbody variant_1_1000000_G_A initial_world "1:1000001:G:A"
             {| status_code := 200; json := JsonValue (VList []) |});
      reflexivity.
  - apply (Hrun mock_entry [second_entry] "report.csv" "report.pkl"
             initial_world
             [("chrom", VStr "1"); ("pos", VInt 1000); ("ref", VStr "A");
              ("alt", VStr "G")]
             "1:1001:A:G"
             {| status_code := 200; json := JsonValue (VList []) |}
             (VList []));
      try reflexivity.
    intros d. discriminate.
Defined.

(** C8.  A record without alternate alleles makes [parse_vcf_entry] raise
    [IndexError].  Nothing in [main] catches it: whatever the records
    around it, the run ends with an exception before either output file is
    written, and when the records before it went through, that exception
    is the [IndexError]. *)
Theorem parse_vcf_entry_empty_alt_aborts (record : VCFRecord) :
  ALT record = [] ->
  parse_vcf_entry record = Raise IndexError
  /\ (forall net before after output_csv output_pkl w,
         exists e w',
           main net (before ++ record :: after) output_csv output_pkl w
           = (Raise e, w')
           /\ pkl_file w' = pkl_file w
           /\ csv_file w' = csv_file w)
  /\ (forall net before after output_csv output_pkl w entries w1,
         annotated net before w entries w1 ->
         main net (before ++ record :: after) output_csv output_pkl w
         = (Raise IndexError, w1)).
Proof.
  intros Halt.
  assert (Hparse : parse_vcf_entry record = Raise IndexError).
  { unfold parse_vcf_entry. now rewrite Halt. }
  split; [exact Hparse | split].
  - intros net before after output_csv output_pkl w.
    destruct (annotate_raises_at net record after Halt before [] w) as [e He].
    exists e. now apply main_raises.
  - intros net before after output_csv output_pkl w entries w1 Hbefore.
    unfold main. rewrite (annotate_app _ _ _ _ _ Hbefore). simpl.
    now rewrite Hparse.
Qed.

Lemma parse_vcf_entry_empty_alt_aborts_witness :
  parse_vcf_entry no_alt_entry = Raise IndexError
  /\ main unreachable [mock_entry; no_alt_entry; second_entry]
       "report.csv" "report.pkl" initial_world
     = (Raise IndexError,
        snd (annotate unreachable [mock_entry] [] initial_world)).
Proof.
  destruct (parse_vcf_entry_empty_alt_aborts no_alt_entry eq_refl)
    as [Hparse [_ Hrun]].
  split; [exact Hparse |].
  apply (Hrun unreachable [mock_entry] [second_entry] "report.csv" "report.pkl"
           initial_world
           [[("chrom", VStr "1"); ("pos", VInt 1000); ("ref", VStr "A");
             ("alt", VStr "G")]]).
  apply (annotated_cons unreachable mock_entry [] _ [] initial_world _ _ []
           eq_refl eq_refl).
  constructor.
Defined.

(** C4.  When [main] completes on [N] records and the dump and the report
    are two files, the pickle dump holds [N] entries and the report [N + 1]
    rows, the header first.  The entries are those of the records in their
    order, each the merge of its normalized record with the service's
    answer to it, and the rows after the header are those of the entries
    in their order.  (Under one path for both, the report is opened over
    the dump; the world keeps the two files by role and does not cover
    that run.) *)
Theorem main_one_entry_and_row_per_record
  (net : service) (records : list VCFRecord)
  (output_csv output_pkl : string) (w w' : world) :
  output_csv <> output_pkl ->
  main net records output_csv output_pkl w = (Ok tt, w') ->
  exists entries rows,
    pkl_file w' = Some entries
    /\ List.length entries = List.length records
    /\ csv_file w' = Some (header :: rows)
    /\ List.length (header :: rows) = S (List.length records)
    /\ (exists w1, annotated net records w entries w1)
    /\ Forall2 (fun entry row => extract_csv_fields entry = Ok row) entries rows.
Proof.
  intros _ H.
  apply main_ok in H as [entries [rows [w1 [Hann [Hrows [Hpkl Hcsv]]]]]].
  exists entries, rows.
  pose proof (annotated_length _ _ _ _ _ Hann) as Hlen.
  split; [exact Hpkl |]. split; [exact Hlen |]. split; [exact Hcsv |].
  split; [| split; [now exists w1 | exact Hrows]].
  simpl. now rewrite <- (Forall2_length Hrows), Hlen.
Qed.

Lemma main_one_entry_and_row_per_record_witness :
  exists entries rows,
    pkl_file (snd (main answers_mapping [mock_entry; second_entry]
                     "report.csv" "report.pkl" initial_world)) = Some entries
    /\ List.length entries = 2%nat
    /\ csv_file (snd (main answers_mapping [mock_entry; second_entry]
                        "report.csv" "report.pkl" initial_world))
       = Some (header :: rows)
    /\ List.length (header :: rows) = 3%nat
    /\ (exists w1,
           annotated answers_mapping [mock_entry; second_entry] initial_world
             entries w1)
    /\ Forall2 (fun entry row => extract_csv_fields entry = Ok row) entries rows.
Proof.
  apply (main_one_entry_and_row_per_record answers_mapping
           [mock_entry; second_entry] "report.csv" "report.pkl" initial_world
           (snd (main answers_mapping [mock_entry; second_entry]
                   "report.csv" "report.pkl" initial_world))).
  - discriminate.
  - reflexivity.
Defined.

Lemma annotated_wins (net : service) (records : list VCFRecord) (w : world)
  (entries : list dict) (w' : world) :
  annotated net records w entries w' ->
  Forall2 (annotation_wins net) records entries.
Proof.
  induction 1 as [w | record rest vcf_data d w w1 w2 entries Hparse Hq _ IH];
    constructor; [| exact IH].
  exists vcf_data, d. split; [exact Hparse |]. split; [now exists w, w1 |].
  split; [reflexivity |].
  intros k v_variant v_annotation Hnodup _ Hk.
  now apply dict_lookup_merge.
Qed.

(** C9.  In a completed run every entry of the dump is the merge of its
    normalized record with the mapping the service answered, and for a key
    that both have, such as [chrom] or [id], the entry holds the service's
    value, not the record's. *)
Theorem merged_entry_takes_annotation_value
  (net : service) (records : list VCFRecord)
  (output_csv output_pkl : string) (w w' : world) (entries : list dict) :
  main net records output_csv output_pkl w = (Ok tt, w') ->
  pkl_file w' = Some entries ->
  Forall2 (annotation_wins net) records entries.
Proof.
  intros H Hpkl.
  apply main_ok in H as [entries' [rows [w1 [Hann [_ [Hpkl' _]]]]]].
  assert (entries' = entries) as -> by congruence.
  exact (annotated_wins _ _ _ _ _ Hann).
Qed.

Lemma merged_entry_takes_annotation_value_witness :
  Forall2 (annotation_wins answers_mapping) [mock_entry]
    [[("chrom", VStr "chr1"); ("pos", VInt 1000); ("ref", VStr "A");
      ("alt", VStr "G"); ("id", VStr "COSV57")]].
Proof.
  exact (merged_entry_takes_annotation_value answers_mapping [mock_entry]
           "report.csv" "report.pkl" initial_world _ _ eq_refl eq_refl).
Defined.

(** ** The Report Writer's projection *)

Lemma bind_Ok_inv {A B : Type} (m : result A) (k : A -> result B) (b : B) :
  bind m k = Ok b -> exists a, m = Ok a /\ k a = Ok b.
Proof. destruct m as [a | e]; simpl; [now exists a | discriminate]. Qed.

Lemma bind_Raise_inv {A B : Type} (m : result A) (k : A -> result B) (e : exn) :
  bind m k = Raise e -> m = Raise e \/ exists a, m = Ok a /\ k a = Raise e.
Proof.
  destruct m as [a | e']; simpl; intros H.
  - right. now exists a.
  - left. now injection H as ->.
Qed.

Ltac bind_ok H x E :=
  apply bind_Ok_inv in H as [x [E H]]; cbv beta in H.

(** The pieces of a row, for an entry that has one. *)
Lemma extract_csv_fields_ok (entry : dict) (row : list pyval) :
  extract_csv_fields entry = Ok row ->
  exists depth alt_reads percent_alt_reads percent_ref_reads gene_effect
         minor_allele minor_allele_frequency found,
    info_field entry "DP" = Ok depth
    /\ info_field entry "AO" = Ok alt_reads
    /\ (if truthy depth && truthy alt_reads
        then x <- py_truediv alt_reads depth ;; percent x
        else Ok (VStr "")) = Ok percent_alt_reads
    /\ (if truthy depth && truthy alt_reads
        then d <- py_sub depth alt_reads ;; x <- py_truediv d depth ;; percent x
        else Ok (VStr "")) = Ok percent_ref_reads
    /\ py_in "COSV" (dict_get entry "id" (VStr "")) = Ok found
    /\ row = [dict_get entry "chrom" (VStr ""); dict_get entry "pos" (VStr "");
              dict_get entry "ref" (VStr ""); dict_get entry "alt" (VStr "");
              depth; alt_reads; percent_alt_reads; percent_ref_reads;
              fst gene_effect; snd gene_effect; minor_allele;
              minor_allele_frequency; VStr (if found then "1" else "");
              dict_get entry "id" (VStr "")].
Proof.
  unfold extract_csv_fields. cbv zeta. intros H.
  bind_ok H depth Edepth. bind_ok H alt_reads Ealt.
  bind_ok H percent_alt_reads Epa. bind_ok H percent_ref_reads Epr.
  bind_ok H gene_effect Egene. bind_ok H minor_allele Ema.
  bind_ok H minor_allele_frequency Emaf. bind_ok H found Efound.
  injection H as <-.
  exists depth, alt_reads, percent_alt_reads, percent_ref_reads, gene_effect,
    minor_allele, minor_allele_frequency, found.
  repeat (split; [assumption |]). reflexivity.
Qed.

(** A truthy field of [INFO] was really there. *)
Lemma info_field_truthy (entry : dict) (k : string) (v : pyval) :
  info_field entry k = Ok v ->
  truthy v = true ->
  exists info,
    dict_lookup "INFO" entry = Some (VDict info) /\ dict_lookup k info = Some v.
Proof.
  unfold info_field, dict_mem, dict_get.
  destruct (dict_lookup "INFO" entry) as [i |].
  - destruct i as [| | | | | | info]; simpl; try discriminate.
    unfold dict_get. intros H Hv. exists info. split; [reflexivity |].
    destruct (dict_lookup k info) as [v' |].
    + congruence.
    + injection H as <-. discriminate.
  - intros H Hv. injection H as <-. discriminate.
Qed.

Lemma info_field_present (entry info : dict) (k : string) (v : pyval) :
  dict_lookup "INFO" entry = Some (VDict info) ->
  dict_lookup k info = Some v ->
  info_field entry k = Ok v.
Proof.
  intros Hinfo Hk. unfold info_field, dict_mem, dict_get. rewrite Hinfo. simpl.
  unfold dict_get. now rewrite Hk.
Qed.

Lemma guard_usable (entry : dict) (depth alt_reads : pyval) :
  info_field entry "DP" = Ok depth ->
  info_field entry "AO" = Ok alt_reads ->
  truthy depth && truthy alt_reads = true ->
  counts_usable entry.
Proof.
  intros Hd Ha Hguard. apply andb_prop in Hguard as [Htd Hta].
  destruct (info_field_truthy _ _ _ Hd Htd) as [info [Hinfo Hdp]].
  destruct (info_field_truthy _ _ _ Ha Hta) as [info' [Hinfo' Hao]].
  assert (info' = info) as -> by congruence.
  now exists info, depth, alt_reads.
Qed.

(** *** No division by zero *)

Lemma float_of_int_nonzero (n : Z) (f : float) :
  n <> 0 -> float_of_int n = Ok f -> float_is_zero f = false.
Proof.
  intros Hn. unfold float_of_int.
  destruct (Z.eqb_spec n 0) as [E | _]; [contradiction |].
  cbv zeta.
  destruct (div_half_even (Z.abs n) (2 ^ Z.max (Z.log2 (Z.abs n) + 1 - prec) 0)
            =? 2 ^ prec);
    match goal with
    | |- context [if ?c then Raise _ else _] => destruct c
    end; intros H; try discriminate; injection H as <-; reflexivity.
Qed.

Lemma float_of_int_raises (n : Z) (e : exn) :
  float_of_int n = Raise e -> e = OverflowError.
Proof.
  unfold float_of_int. destruct (n =? 0); [discriminate |]. cbv zeta.
  destruct (div_half_even (Z.abs n) (2 ^ Z.max (Z.log2 (Z.abs n) + 1 - prec) 0)
            =? 2 ^ prec);
    match goal with
    | |- context [if ?c then Raise _ else _] => destruct c
    end; intros H; try discriminate; now injection H as <-.
Qed.

Lemma num_to_float_raises (x : num) (e : exn) :
  num_to_float x = Raise e -> e = OverflowError.
Proof. destruct x; simpl; [apply float_of_int_raises | discriminate]. Qed.

Lemma int_truediv_raises (x y : Z) (e : exn) :
  y <> 0 -> int_truediv x y = Raise e -> e = OverflowError.
Proof.
  intros Hy. unfold int_truediv.
  destruct (Z.eqb_spec y 0) as [E | _]; [contradiction |].
  destruct (nearest_quotient x y); intros H; try discriminate.
  now injection H as <-.
Qed.

(** A truthy number is not zero. *)
Lemma truthy_num (v : pyval) (y : num) :
  truthy v = true ->
  as_num v = Some y ->
  match y with
  | NInt n => n <> 0
  | NFloat f => float_is_zero f = false
  end.
Proof.
  destruct v as [| b | n | f | | |]; simpl; try discriminate;
    intros Ht H; injection H as <-.
  - destruct b; [discriminate | discriminate Ht].
  - destruct (Z.eqb_spec n 0); [discriminate | assumption].
  - now destruct (float_is_zero f).
Qed.

(** Dividing by a truthy value raises at most [TypeError] or
    [OverflowError]. *)
Lemma py_truediv_raises (a b : pyval) (e : exn) :
  truthy b = true ->
  py_truediv a b = Raise e ->
  e = TypeError \/ e = OverflowError.
Proof.
  intros Hb. unfold py_truediv.
  destruct (as_num a) as [x |]; [| intros H; left; now injection H as <-].
  destruct (as_num b) as [y |] eqn:Hy;
    [| destruct x; intros H; left; now injection H as <-].
  pose proof (truthy_num _ _ Hb Hy) as Hnz.
  assert (Hfloat : forall fx fy,
             num_to_float y = Ok fy -> float_truediv fx fy = Raise e -> False).
  { intros fx fy Hfy. unfold float_truediv.
    destruct y as [n | f]; simpl in Hfy.
    - now rewrite (float_of_int_nonzero _ _ Hnz Hfy).
    - injection Hfy as <-. now rewrite Hnz. }
  assert (Hmixed : (fx <- num_to_float x ;; fy <- num_to_float y ;;
                    float_truediv fx fy) = Raise e ->
                   e = TypeError \/ e = OverflowError).
  { intros H. right.
    apply bind_Raise_inv in H as [H | [fx [_ H]]];
      [exact (num_to_float_raises _ _ H) |].
    apply bind_Raise_inv in H as [H | [fy [Hfy H]]];
      [exact (num_to_float_raises _ _ H) |].
    destruct (Hfloat _ _ Hfy H). }
  destruct x as [nx | fx]; destruct y as [ny | fy]; try exact Hmixed.
  intros H. right. exact (int_truediv_raises _ _ _ Hnz H).
Qed.

Lemma float_round_raises (x : float) (ndigits : Z) (e : exn) :
  float_round x ndigits = Raise e -> e = OverflowError.
Proof.
  unfold float_round. destruct x as [s | s | | s m ex]; try discriminate.
  destruct (NDIGITS_MAX <? ndigits); [discriminate |].
  destruct (ndigits <? NDIGITS_MIN); [discriminate |].
  cbv zeta.
  match goal with
  | |- context [with_sign ?s ?f] => destruct (with_sign s f)
  end; intros H; try discriminate.
  now injection H as <-.
Qed.

Lemma percent_raises (x : float) (e : exn) :
  percent x = Raise e -> e = OverflowError.
Proof.
  unfold percent, float_mul_int. intros H.
  apply bind_Raise_inv in H as [H | [p [_ H]]].
  - apply bind_Raise_inv in H as [H | [fn [_ H]]]; [| discriminate].
    exact (float_of_int_raises _ _ H).
  - apply bind_Raise_inv in H as [H | [r [_ H]]]; [| discriminate].
    exact (float_round_raises _ _ _ H).
Qed.

Lemma py_sub_raises (a b : pyval) (e : exn) :
  py_sub a b = Raise e -> e = TypeError \/ e = OverflowError.
Proof.
  unfold py_sub.
  destruct (as_num a) as [x |]; [| intros H; left; now injection H as <-].
  destruct (as_num b) as [y |];
    [| destruct x; intros H; left; now injection H as <-].
  assert (Hmixed : (fx <- num_to_float x ;; fy <- num_to_float y ;;
                    Ok (VFloat (SFsub prec emax fx fy))) = Raise e ->
                   e = TypeError \/ e = OverflowError).
  { intros H. right.
    apply bind_Raise_inv in H as [H | [fx [_ H]]];
      [exact (num_to_float_raises _ _ H) |].
    apply bind_Raise_inv in H as [H | [fy [_ H]]];
      [exact (num_to_float_raises _ _ H) | discriminate]. }
  destruct x as [nx | fx]; destruct y as [ny | fy]; try exact Hmixed.
  discriminate.
Qed.

Lemma info_field_raises (entry : dict) (k : string) (e : exn) :
  info_field entry k = Raise e -> e = AttributeError.
Proof.
  unfold info_field. destruct (dict_mem "INFO" entry); [| discriminate].
  destruct (dict_get entry "INFO" VNone); simpl; intros H;
    try discriminate; now injection H as <-.
Qed.

Lemma py_first_raises (v : pyval) (e : exn) :
  py_first v = Raise e -> e <> ZeroDivisionError.
Proof.
  destruct v as [| | | | s | l |]; simpl; try (intros H; injection H as <-; discriminate).
  - destruct s; intros H; [injection H as <- |]; discriminate.
  - destruct l; intros H; [injection H as <- |]; discriminate.
Qed.

Lemma py_get_raises (v : pyval) (k : string) (default : pyval) (e : exn) :
  py_get v k default = Raise e -> e = AttributeError.
Proof.
  destruct v; simpl; intros H; try discriminate; now injection H as <-.
Qed.

Lemma all_strs_raises (l : list pyval) (e : exn) :
  all_strs l = Raise e -> e = TypeError.
Proof.
  induction l as [| v l IH]; simpl; [discriminate |].
  destruct v; try (intros H; now injection H as <-).
  intros H. apply bind_Raise_inv in H as [H | [rest [_ H]]];
    [now apply IH | discriminate].
Qed.

Lemma py_join_raises (sep : string) (v : pyval) (e : exn) :
  py_join sep v = Raise e -> e = TypeError.
Proof.
  destruct v; simpl; try (intros H; now injection H as <-); try discriminate.
  intros H. apply bind_Raise_inv in H as [H | [parts [_ H]]];
    [exact (all_strs_raises _ _ H) | discriminate].
Qed.

Lemma py_in_raises (needle : string) (v : pyval) (e : exn) :
  py_in needle v = Raise e -> e = TypeError.
Proof.
  destruct v; simpl; intros H; try discriminate; now injection H as <-.
Qed.

Ltac bind_raise H x E :=
  apply bind_Raise_inv in H as [H | [x [E H]]]; cbv beta in H.

Ltac wrong_class H lemma :=
  apply lemma in H; first [discriminate H | destruct H; discriminate | congruence].

Lemma guarded_division_raises (depth alt_reads : pyval) (e : exn) :
  (if truthy depth && truthy alt_reads
   then x <- py_truediv alt_reads depth ;; percent x
   else Ok (VStr "")) = Raise e ->
  e = TypeError \/ e = OverflowError.
Proof.
  destruct (truthy depth && truthy alt_reads) eqn:G; [| discriminate].
  apply andb_prop in G as [Hd _]. intros H.
  bind_raise H x E.
  - exact (py_truediv_raises _ _ _ Hd H).
  - right. exact (percent_raises _ _ H).
Qed.

Lemma guarded_complement_raises (depth alt_reads : pyval) (e : exn) :
  (if truthy depth && truthy alt_reads
   then d <- py_sub depth alt_reads ;; x <- py_truediv d depth ;; percent x
   else Ok (VStr "")) = Raise e ->
  e = TypeError \/ e = OverflowError.
Proof.
  destruct (truthy depth && truthy alt_reads) eqn:G; [| discriminate].
  apply andb_prop in G as [Hd _]. intros H.
  bind_raise H d E; [exact (py_sub_raises _ _ _ H) |].
  bind_raise H x E'.
  - exact (py_truediv_raises _ _ _ Hd H).
  - right. exact (percent_raises _ _ H).
Qed.

Lemma extract_csv_fields_no_ZeroDivisionError (entry : dict) :
  extract_csv_fields entry <> Raise ZeroDivisionError.
Proof.
  unfold extract_csv_fields. cbv zeta. intros H.
  bind_raise H depth Edepth; [wrong_class H info_field_raises |].
  bind_raise H alt_reads Ealt; [wrong_class H info_field_raises |].
  bind_raise H percent_alt_reads Epa; [wrong_class H guarded_division_raises |].
  bind_raise H percent_ref_reads Epr;
    [wrong_class H guarded_complement_raises |].
  bind_raise H gene_effect Egene.
  { destruct (dict_mem "transcript_consequences" entry
              && truthy (dict_get entry "transcript_consequences" VNone));
      [| discriminate].
    bind_raise H consequence Econsequence; [now apply py_first_raises in H |].
    bind_raise H gene Egene; [wrong_class H py_get_raises |].
    bind_raise H terms Eterms; [wrong_class H py_get_raises |].
    bind_raise H variant_effect Eve; [wrong_class H py_join_raises |].
    discriminate. }
  bind_raise H minor_allele Ema; [wrong_class H info_field_raises |].
  bind_raise H minor_allele_frequency Emaf; [wrong_class H info_field_raises |].
  bind_raise H found Efound; [wrong_class H py_in_raises |].
  discriminate.
Qed.

(** C6.  The two percentages of a row are blank unless the entry has a
    depth and an alt-read count that are both truthy.  The divisions by the
    depth sit under that guard, where the depth is not zero, so that
    [extract_csv_fields] never raises [ZeroDivisionError]. *)
Theorem percentages_guarded (entry : dict) :
  (forall row,
      extract_csv_fields entry = Ok row ->
      ~ counts_usable entry ->
      nth_error row 6 = Some (VStr "") /\ nth_error row 7 = Some (VStr ""))
  /\ (forall depth dividend,
         truthy depth = true ->
         py_truediv dividend depth <> Raise ZeroDivisionError)
  /\ extract_csv_fields entry <> Raise ZeroDivisionError.
Proof.
  split; [| split].
  - intros row Hrow Hunusable.
    apply extract_csv_fields_ok in Hrow
      as (depth & alt_reads & pa & pr & ge & ma & maf & found
          & Hd & Ha & Hpa & Hpr & _ & ->).
    destruct (truthy depth && truthy alt_reads) eqn:G.
    + destruct Hunusable. exact (guard_usable _ _ _ Hd Ha G).
    + injection Hpa as <-. injection Hpr as <-. now split.
  - intros depth dividend Hd H.
    apply (py_truediv_raises _ _ _ Hd) in H. destruct H; discriminate.
  - apply extract_csv_fields_no_ZeroDivisionError.
Qed.

Lemma percentages_guarded_witness :
  exists row,
    extract_csv_fields entry_zero_depth = Ok row
    /\ nth_error row 6 = Some (VStr "")
    /\ nth_error row 7 = Some (VStr "").
Proof.
  eexists. split; [reflexivity |].
  destruct (percentages_guarded entry_zero_depth) as [H _].
  apply H.
  - reflexivity.
  - intros (info & depth & alt_reads & Hinfo & Hdp & _ & Hd & _).
    injection Hinfo as <-. injection Hdp as <-. discriminate Hd.
Defined.

Lemma info_field_dict (entry info : dict) (k : string) :
  dict_lookup "INFO" entry = Some (VDict info) ->
  info_field entry k = Ok (dict_get info k (VStr "")).
Proof.
  intros Hinfo. unfold info_field, dict_mem, dict_get at 1. now rewrite Hinfo.
Qed.

Lemma info_field_absent (entry : dict) (k : string) :
  dict_lookup "INFO" entry = None -> info_field entry k = Ok (VStr "").
Proof. intros Hinfo. unfold info_field, dict_mem. now rewrite Hinfo. Qed.

Lemma dict_get_present (d : dict) (k : string) (v default : pyval) :
  dict_lookup k d = Some v -> dict_get d k default = v.
Proof. intros H. unfold dict_get. now rewrite H. Qed.

Lemma py_in_id (entry : dict) :
  dict_lookup "id" entry = None
  \/ (exists id, dict_lookup "id" entry = Some (VStr id)) ->
  exists found, py_in "COSV" (dict_get entry "id" (VStr "")) = Ok found.
Proof.
  unfold dict_get. intros [-> | [id ->]]; eexists; reflexivity.
Qed.

(** An entry without [INFO] and without [transcript_consequences], whose
    [id] is absent or a str, has a row. *)
Lemma extract_csv_fields_bare (entry : dict) :
  dict_lookup "INFO" entry = None ->
  dict_lookup "transcript_consequences" entry = None ->
  dict_lookup "id" entry = None
  \/ (exists id, dict_lookup "id" entry = Some (VStr id)) ->
  exists row, extract_csv_fields entry = Ok row.
Proof.
  intros Hinfo Htc Hid. destruct (py_in_id _ Hid) as [found Hfound].
  unfold extract_csv_fields. cbv zeta.
  rewrite !(info_field_absent _ _ Hinfo). unfold dict_mem at 1.
  rewrite Htc, Hfound. simpl. eexists. reflexivity.
Qed.

(** C7.  In the row of an entry, [somatic] is ["1"] when the entry's [id]
    is a str in which [COSV] occurs, and blank when it is a str in which it
    does not occur or when the entry has no [id]; in every case it follows
    the membership test [COSV in id].  Entries with nothing but the variant
    fields and such an [id] do have a row. *)
Theorem somatic_flags_COSV (entry : dict) :
  (forall row,
      extract_csv_fields entry = Ok row ->
      (forall id,
          dict_lookup "id" entry = Some (VStr id) ->
          ((exists a b, id = a ++ "COSV" ++ b) ->
           nth_error row 12 = Some (VStr "1"))
          /\ (~ (exists a b, id = a ++ "COSV" ++ b) ->
              nth_error row 12 = Some (VStr "")))
      /\ (dict_lookup "id" entry = None -> nth_error row 12 = Some (VStr ""))
      /\ (exists found,
             py_in "COSV" (dict_get entry "id" (VStr "")) = Ok found
             /\ nth_error row 12 = Some (VStr (if found then "1" else ""))))
  /\ (dict_lookup "INFO" entry = None ->
      dict_lookup "transcript_consequences" entry = None ->
      dict_lookup "id" entry = None
      \/ (exists id, dict_lookup "id" entry = Some (VStr id)) ->
      exists row, extract_csv_fields entry = Ok row).
Proof.
  split; [| apply extract_csv_fields_bare].
  intros row Hrow.
  apply extract_csv_fields_ok in Hrow
    as (depth & alt_reads & pa & pr & ge & ma & maf & found
        & _ & _ & _ & _ & Hfound & ->).
  split; [| split].
  - intros id Hid. rewrite (dict_get_present _ _ _ _ Hid) in Hfound.
    cbn [py_in] in Hfound. injection Hfound as <-. cbn [nth_error]. split.
    + intros Hocc. apply is_substring_spec in Hocc. now rewrite Hocc.
    + intros Hnot. destruct (is_substring "COSV" id) eqn:E; [| reflexivity].
      apply is_substring_spec in E. contradiction.
  - intros Hid. unfold dict_get in Hfound. rewrite Hid in Hfound.
    injection Hfound as <-. reflexivity.
  - exists found. now split.
Qed.

Lemma somatic_flags_COSV_witness :
  exists row,
    extract_csv_fields entry_somatic = Ok row
    /\ nth_error row 12 = Some (VStr "1").
Proof.
  destruct (somatic_flags_COSV entry_somatic) as [_ Hrow].
  destruct Hrow as [row Hrow].
  - reflexivity.
  - reflexivity.
  - right. now exists "rs1,COSV57".
  - exists row. split; [exact Hrow |].
    destruct (somatic_flags_COSV entry_somatic) as [H _].
    destruct (H row Hrow) as [Hid _].
    destruct (Hid "rs1,COSV57" eq_refl) as [Hyes _].
    apply Hyes. now exists "rs1,", "57".
Defined.

(** *** The example of the specification *)

Lemma percent_alt_25_100 :
  (x <- py_truediv (VInt 25) (VInt 100) ;; percent x) = Ok (VStr "25.0").
Proof. vm_compute. reflexivity. Qed.

Lemma percent_ref_25_100 :
  (d <- py_sub (VInt 100) (VInt 25) ;;
   x <- py_truediv d (VInt 100) ;; percent x) = Ok (VStr "75.0").
Proof. vm_compute. reflexivity. Qed.

(** C1, as the specification has it: with the counts given as the strings
    ['100'] and ['25'] the division raises [TypeError], and there is no row
    to hold the two percentages. *)
Lemma string_counts_have_no_row :
  extract_csv_fields entry_string_counts = Raise TypeError
  /\ ~ (exists row,
           extract_csv_fields entry_string_counts = Ok row
           /\ nth_error row 6 = Some (VStr "25.0")
           /\ nth_error row 7 = Some (VStr "75.0")).
Proof.
  assert (H : extract_csv_fields entry_string_counts = Raise TypeError)
    by reflexivity.
  split; [exact H |].
  intros [row [Hrow _]]. rewrite H in Hrow. discriminate.
Qed.

(** C1, amended.  For an entry whose [INFO] maps [DP] to the integer 100 and
    [AO] to the integer 25, every row has [percent_alt_reads] equal to
    ["25.0"] and [percent_ref_reads] equal to ["75.0"], and there is a row
    when the entry has no [transcript_consequences] and its [id] is absent
    or a str.  When [INFO] maps the two keys to the strings ['100'] and
    ['25'], [extract_csv_fields] raises [TypeError]. *)
Theorem percentages_of_counts_100_25 (entry info : dict) :
  dict_lookup "INFO" entry = Some (VDict info) ->
  (dict_lookup "DP" info = Some (VInt 100) ->
   dict_lookup "AO" info = Some (VInt 25) ->
   (forall row,
       extract_csv_fields entry = Ok row ->
       nth_error row 6 = Some (VStr "25.0")
       /\ nth_error row 7 = Some (VStr "75.0"))
   /\ (dict_lookup "transcript_consequences" entry = None ->
       dict_lookup "id" entry = None
       \/ (exists id, dict_lookup "id" entry = Some (VStr id)) ->
       exists row, extract_csv_fields entry = Ok row))
  /\ (dict_lookup "DP" info = Some (VStr "100") ->
      dict_lookup "AO" info = Some (VStr "25") ->
      extract_csv_fields entry = Raise TypeError).
Proof.
  intros Hinfo. split.
  - intros Hdp Hao. split.
    + intros row Hrow.
      apply extract_csv_fields_ok in Hrow
        as (depth & alt_reads & pa & pr & ge & ma & maf & found
            & Hd & Ha & Hpa & Hpr & _ & ->).
      rewrite (info_field_present _ _ _ _ Hinfo Hdp) in Hd.
      rewrite (info_field_present _ _ _ _ Hinfo Hao) in Ha.
      injection Hd as <-. injection Ha as <-.
      change (truthy (VInt 100) && truthy (VInt 25)) with true in Hpa, Hpr.
      cbv iota in Hpa, Hpr.
      rewrite percent_alt_25_100 in Hpa. rewrite percent_ref_25_100 in Hpr.
      injection Hpa as <-. injection Hpr as <-. now split.
    + intros Htc Hid. destruct (py_in_id _ Hid) as [found Hfound].
      unfold extract_csv_fields. cbv zeta.
      rewrite !(info_field_dict _ _ _ Hinfo).
      rewrite (dict_get_present _ _ _ _ Hdp), (dict_get_present _ _ _ _ Hao).
      cbn [bind].
      change (truthy (VInt 100) && truthy (VInt 25)) with true. cbv iota.
      rewrite percent_alt_25_100, percent_ref_25_100. cbn [bind].
      unfold dict_mem at 1. rewrite Htc, Hfound. cbn [bind andb].
      eexists. reflexivity.
  - intros Hdp Hao. unfold extract_csv_fields. cbv zeta.
    rewrite !(info_field_dict _ _ _ Hinfo).
    rewrite (dict_get_present _ _ _ _ Hdp), (dict_get_present _ _ _ _ Hao).
    reflexivity.
Qed.

Lemma percentages_of_counts_100_25_witness :
  exists row,
    extract_csv_fields entry_int_counts = Ok row
    /\ nth_error row 6 = Some (VStr "25.0")
    /\ nth_error row 7 = Some (VStr "75.0").
Proof.
  destruct (percentages_of_counts_100_25 entry_int_counts
              [("DP", VInt 100); ("AO", VInt 25)] eq_refl) as [Hint _].
  destruct (Hint eq_refl eq_refl) as [Hrows Hrow].
  destruct Hrow as [row Hrow].
  - reflexivity.
  - now left.
  - exists row. split; [exact Hrow |]. exact (Hrows row Hrow).
Defined.

(** * Further properties of the code *)

(** ** [query_ensembl] beyond the two degraded answers *)




Lemma swallow_raises (e e' : exn) (w : world) :
  fst (swallow e w) = Raise e' -> is_Exception e' = false.
Proof.
  unfold swallow. destruct (is_Exception e) eqn:E; simpl; [discriminate |].
  intros H. now injection H as <-.
Qed.

Lemma swallow_propagates (e : exn) (w : world) :
  is_Exception e = false -> swallow e w = (Raise e, w).
Proof. unfold swallow. now intros ->. Qed.

(** Once the request is built, nothing an [except Exception] clause
    catches comes out of the client. *)
Lemma query_ensembl_raises (net : service) (variant : dict) (w : world)
  (spdi : string) (e : exn) :
  spdi_notation variant = Ok spdi ->
  fst (query_ensembl net variant w) = Raise e ->
  is_Exception e = false.
Proof.
  intros Hspdi. unfold query_ensembl. rewrite Hspdi.
  destruct (net (requests w) (request_body spdi)) as [r | e0].
  - destruct (status_code r =? 200); [| discriminate].
    destruct (json r) as [v | e0]; [discriminate | apply swallow_raises].
  - apply swallow_raises.
Qed.

(** X1.  A 200 response whose body does not parse is handled like a
    failed POST: the exception of [response.json()] is printed and the
    empty mapping returned.  Only what does not derive from [Exception]
    (an interrupt, an exit) leaves [query_ensembl], whether the POST or the
    parsing raised it. *)
Theorem query_ensembl_catches_Exception_only
  (net : service) (variant : dict) (w : world) (spdi : string) :
  spdi_notation variant = Ok spdi ->
  (forall r e,
      net (requests w) (request_body spdi) = PostReturns r ->
      status_code r = 200 ->
      json r = JsonRaises e ->
      is_Exception e = true ->
      query_ensembl net variant w
      = (Ok (VDict []), print (ApiError e) (sent (request_body spdi) w)))
  /\ (forall e,
         net (requests w) (request_body spdi) = PostRaises e
         \/ (exists r,
                net (requests w) (request_body spdi) = PostReturns r
                /\ status_code r = 200 /\ json r = JsonRaises e) ->
         is_Exception e = false ->
         query_ensembl net variant w = (Raise e, sent (request_body spdi) w))
  /\ (forall e,
         fst (query_ensembl net variant w) = Raise e -> is_Exception e = false).
Proof.
  intros Hspdi. split; [| split].
  - intros r e Hnet Hstatus Hjson He. unfold query_ensembl.
    rewrite Hspdi, Hnet, Hstatus, Hjson. now apply swallow_Exception.
  - intros e [Hnet | [r [Hnet [Hstatus Hjson]]]] He; unfold query_ensembl;
      rewrite Hspdi, Hnet.
    + now apply swallow_propagates.
    + rewrite Hstatus, Hjson. now apply swallow_propagates.
  - intros e. exact (query_ensembl_raises _ _ _ _ _ Hspdi).
Qed.

Lemma query_ensembl_catches_Exception_only_witness :
  query_ensembl garbled variant_1_1000000_G_A initial_world
  = (Ok (VDict []),
     print (ApiError JSONDecodeError)
       (sent (request_body "1:1000001:G:A") initial_world))
  /\ query_ensembl interrupted variant_1_1000000_G_A initial_world
     = (Raise KeyboardInterrupt,
        sent (request_body "1:1000001:G:A") initial_world).
Proof.
  split.
  - destruct (query_ensembl_catches_Exception_only garbled
                variant_1_1000000_G_A initial_world "1:1000001:G:A" eq_refl)
      as [H _].
    apply (H {| status_code := 200; json := JsonRaises JSONDecodeError |});
      reflexivity.
  - destruct (query_ensembl_catches_Exception_only interrupted
                variant_1_1000000_G_A initial_world "1:1000001:G:A" eq_refl)
      as [_ [H _]].
    apply H; [now left | reflexivity].
Defined.



Lemma swallow_stdout (e : exn) (w : world) :
  stdout (snd (swallow e w)) = stdout w
  \/ (is_Exception e = true
      /\ fst (swallow e w) = Ok (VDict [])
      /\ stdout (snd (swallow e w)) = (stdout w ++ [ApiError e])%list).
Proof. unfold swallow. destruct (is_Exception e); [right | left]; auto. Qed.

(** X3.  A response with a status other than 200 is turned into the empty
    mapping silently.  A line is printed for a swallowed exception only,
    one line, and then the answer is the empty mapping. *)
Theorem query_ensembl_prints_swallowed_exceptions_only
  (net : service) (variant : dict) (w : world) :
  (forall spdi r,
      spdi_notation variant = Ok spdi ->
      net (requests w) (request_body spdi) = PostReturns r ->
      status_code r <> 200 ->
      stdout (snd (query_ensembl net variant w)) = stdout w)
  /\ (stdout (snd (query_ensembl net variant w)) = stdout w
      \/ exists e,
           is_Exception e = true
           /\ fst (query_ensembl net variant w) = Ok (VDict [])
           /\ stdout (snd (query_ensembl net variant w))
              = (stdout w ++ [ApiError e])%list).
Proof.
  split.
  - intros spdi r Hspdi Hnet Hstatus.
    now rewrite (query_ensembl_not_200 _ _ _ _ _ Hspdi Hnet Hstatus).
  - unfold query_ensembl.
    destruct (spdi_notation variant) as [spdi | e]; [| now left].
    destruct (net (requests w) (request_body spdi)) as [r | e].
    + destruct (status_code r =? 200); [| now left].
      destruct (json r) as [v | e]; [now left |].
      destruct (swallow_stdout e (sent (request_body spdi) w)) as [H | H];
        [now left | right; now exists e].
    + destruct (swallow_stdout e (sent (request_body spdi) w)) as [H | H];
        [now left | right; now exists e].
Qed.

Lemma query_ensembl_prints_swallowed_exceptions_only_witness :
  stdout (snd (query_ensembl not_found variant_1_1000000_G_A initial_world)) = [].
Proof.
  destruct (query_ensembl_prints_swallowed_exceptions_only not_found
              variant_1_1000000_G_A initial_world) as [H _].
  apply (H "1:1000001:G:A"
           {| status_code := 404; json := JsonRaises JSONDecodeError |});
    [reflexivity | reflexivity | discriminate].
Defined.

(** ** The run of [main] beyond its completion *)

Lemma parse_vcf_entry_raises (record : VCFRecord) (e : exn) :
  parse_vcf_entry record = Raise e -> e = IndexError.
Proof.
  unfold parse_vcf_entry. destruct (ALT record); simpl; intros H;
    [now injection H as <- | discriminate].
Qed.

Lemma py_merge_raises (a : dict) (b : pyval) (e : exn) :
  py_merge a b = Raise e -> e = TypeError.
Proof.
  destruct b; simpl; intros H; try discriminate; now injection H as <-.
Qed.

Lemma annotate_raises (net : service) (records : list VCFRecord) :
  forall (acc : list dict) (w : world) (e : exn),
    fst (annotate net records acc w) = Raise e ->
    e = IndexError \/ e = TypeError \/ is_Exception e = false.
Proof.
  induction records as [| record rest IH]; simpl; intros acc w e H.
  - discriminate.
  - destruct (parse_vcf_entry record) as [vcf_data | e0] eqn:Hparse.
    + destruct (parsed_notation _ _ Hparse) as [spdi Hspdi].
      pose proof (query_ensembl_raises net vcf_data w spdi) as Hq.
      destruct (query_ensembl net vcf_data w) as [[ensembl_data | e1] w1].
      * destruct (py_merge vcf_data ensembl_data) as [combined | e2] eqn:Hm.
        -- exact (IH _ _ _ H).
        -- simpl in H. injection H as <-. right. left.
           exact (py_merge_raises _ _ _ Hm).
      * simpl in H. injection H as <-. right. right. now apply Hq.
    + simpl in H. injection H as <-. left.
      exact (parse_vcf_entry_raises _ _ Hparse).
Qed.

(** X4.  The first loop of [main] can end in three ways only: with the
    [IndexError] of a record without alternate alleles, with the
    [TypeError] of a response that is not a mapping, or with something the
    client does not catch because it is no [Exception].  In each case
    neither output file has been touched. *)
Theorem first_loop_failures
  (net : service) (records : list VCFRecord)
  (output_csv output_pkl : string) (w : world) (e : exn) :
  fst (annotate net records [] w) = Raise e ->
  (e = IndexError \/ e = TypeError \/ is_Exception e = false)
  /\ exists w',
       main net records output_csv output_pkl w = (Raise e, w')
       /\ pkl_file w' = pkl_file w
       /\ csv_file w' = csv_file w.
Proof.
  intros H. split.
  - exact (annotate_raises _ _ _ _ _ H).
  - now apply main_raises.
Qed.

Lemma first_loop_failures_witness :
  (KeyboardInterrupt = IndexError \/ KeyboardInterrupt = TypeError
   \/ is_Exception KeyboardInterrupt = false)
  /\ exists w',
       main interrupted [mock_entry; second_entry] "report.csv" "report.pkl"
         initial_world = (Raise KeyboardInterrupt, w')
       /\ pkl_file w' = None
       /\ csv_file w' = None.
Proof.
  exact (first_loop_failures interrupted [mock_entry; second_entry]
           "report.csv" "report.pkl" initial_world KeyboardInterrupt eq_refl).
Defined.

Lemma annotated_requests (net : service) (records : list VCFRecord)
  (w : world) (entries : list dict) (w' : world) :
  annotated net records w entries w' ->
  requests w'
  = (requests w
     ++ map (fun record =>
               request_body (CHROM record ++ ":" ++ int_str (POS record + 1)
                             ++ ":" ++ REF record ++ ":" ++ hd "" (ALT record)))
         records)%list.
Proof.
  induction 1 as [w | record rest vcf_data d w w1 w2 entries Hparse Hq _ IH].
  - simpl. now rewrite app_nil_r.
  - apply parse_vcf_entry_ok in Hparse as [alt [others [Halt ->]]].
    pose proof (query_ensembl_requests net _ w _
                  (spdi_notation_variant
                     [("chrom", VStr (CHROM record)); ("pos", VInt (POS record));
                      ("ref", VStr (REF record)); ("alt", VStr alt)]
                     (CHROM record) (REF record) alt (POS record)
                     eq_refl eq_refl eq_refl eq_refl)) as Hreq.
    rewrite Hq in Hreq. simpl in Hreq.
    cbn [map]. rewrite IH, Hreq, Halt. cbn [hd]. now rewrite <- app_assoc.
Qed.

(** The second loop writes rows and nothing else, however it ends. *)
Lemma write_rows_frame (entries : list dict) :
  forall w,
    stdout (snd (write_rows entries w)) = stdout w
    /\ requests (snd (write_rows entries w)) = requests w
    /\ pkl_file (snd (write_rows entries w)) = pkl_file w.
Proof.
  induction entries as [| entry rest IH]; simpl; intros w.
  - repeat split.
  - destruct (extract_csv_fields entry) as [row | e]; [| repeat split].
    destruct (IH (writerow row w)) as [Ho [Hr Hp]]. now repeat split.
Qed.

(** X5.  A completed run has sent one request per record, in the order of
    the records, each with the notation of its record:
    [CHROM:POS+1:REF:] and the first alternate allele. *)
Theorem main_posts_each_record_once
  (net : service) (records : list VCFRecord)
  (output_csv output_pkl : string) (w w' : world) :
  main net records output_csv output_pkl w = (Ok tt, w') ->
  requests w'
  = (requests w
     ++ map (fun record =>
               request_body (CHROM record ++ ":" ++ int_str (POS record + 1)
                             ++ ":" ++ REF record ++ ":" ++ hd "" (ALT record)))
         records)%list.
Proof.
  unfold main. intros H.
  destruct (annotate net records [] w) as [[all_data | e] w1] eqn:Hloop;
    [| discriminate].
  apply annotate_ok in Hloop as [entries [-> Hann]]. simpl in H.
  pose proof (write_rows_frame entries
                (writerow header (csv_open (pickle_dump entries w1))))
    as [_ [Hreq _]].
  destruct (write_rows entries _) as [[[] | e] w4]; [| discriminate].
  injection H as <-. simpl in *. rewrite Hreq.
  exact (annotated_requests _ _ _ _ _ Hann).
Qed.

Lemma main_posts_each_record_once_witness :
  requests (snd (main not_found [mock_entry; second_entry]
                   "report.csv" "report.pkl" initial_world))
  = [request_body "1:1001:A:G"; request_body "2:2001:C:T"].
Proof.
  exact (main_posts_each_record_once not_found [mock_entry; second_entry]
           "report.csv" "report.pkl" initial_world _ eq_refl).
Defined.

Lemma write_rows_raises (before : list dict) (entry : dict)
  (after : list dict) (rows : list (list pyval)) (e : exn) :
  Forall2 (fun entry row => extract_csv_fields entry = Ok row) before rows ->
  extract_csv_fields entry = Raise e ->
  forall w rows0,
    csv_file w = Some rows0 ->
    exists w',
      write_rows (before ++ entry :: after) w = (Raise e, w')
      /\ csv_file w' = Some (rows0 ++ rows)%list.
Proof.
  intros Hrows Hentry.
  induction Hrows as [| entry0 row before rows Hrow _ IH]; intros w rows0 Hcsv;
    simpl.
  - rewrite Hentry. exists w. now rewrite app_nil_r.
  - rewrite Hrow.
    destruct (IH (writerow row w) (rows0 ++ [row])%list) as [w' [Hrun Hcsv']].
    + simpl. now rewrite Hcsv.
    + exists w'. split; [exact Hrun |]. now rewrite Hcsv', <- app_assoc.
Qed.

(** X6.  When [extract_csv_fields] raises on an entry and the dump and
    the report are two files, the run ends with that exception after the
    dump has been written in full and the report in part: the header and
    the rows of the entries before the failing one.  The closing line is
    not printed. *)
Theorem main_partial_report
  (net : service) (records : list VCFRecord)
  (output_csv output_pkl : string) (w w1 : world)
  (before : list dict) (entry : dict) (after : list dict)
  (rows : list (list pyval)) (e : exn) :
  output_csv <> output_pkl ->
  annotated net records w (before ++ entry :: after) w1 ->
  Forall2 (fun entry row => extract_csv_fields entry = Ok row) before rows ->
  extract_csv_fields entry = Raise e ->
  exists w',
    main net records output_csv output_pkl w = (Raise e, w')
    /\ pkl_file w' = Some (before ++ entry :: after)%list
    /\ csv_file w' = Some (header :: rows)
    /\ stdout w' = stdout w1.
Proof.
  intros _ Hann Hrows Hentry. unfold main.
  rewrite (annotated_annotate _ _ _ _ _ Hann []). simpl.
  set (w3 := writerow header (csv_open
                                (pickle_dump (before ++ entry :: after) w1))).
  destruct (write_rows_raises before entry after rows e Hrows Hentry w3 [header]
              eq_refl) as [w' [Hrun Hcsv]].
  pose proof (write_rows_frame (before ++ entry :: after) w3) as [Ho [_ Hp]].
  rewrite Hrun in *. simpl in Ho, Hp.
  exists w'. repeat split; assumption.
Qed.

Lemma main_partial_report_witness :
  exists w',
    main answers_null_info [mock_entry; second_entry] "report.csv" "report.pkl"
      initial_world = (Raise AttributeError, w')
    /\ pkl_file w'
       = Some [[("chrom", VStr "1"); ("pos", VInt 1000); ("ref", VStr "A");
                ("alt", VStr "G")];
               [("chrom", VStr "2"); ("pos", VInt 2000); ("ref", VStr "C");
                ("alt", VStr "T"); ("INFO", VNone)]]
    /\ csv_file w'
       = Some [header;
               [VStr "1"; VInt 1000; VStr "A"; VStr "G"; VStr ""; VStr "";
                VStr ""; VStr ""; VStr ""; VStr ""; VStr ""; VStr ""; VStr "";
                VStr ""]]
    /\ stdout w' = [].
Proof.
  apply (main_partial_report answers_null_info [mock_entry; second_entry]
           "report.csv" "report.pkl" initial_world
           (snd (annotate answers_null_info [mock_entry; second_entry] []
                   initial_world))
           [[("chrom", VStr "1"); ("pos", VInt 1000); ("ref", VStr "A");
             ("alt", VStr "G")]]
           [("chrom", VStr "2"); ("pos", VInt 2000); ("ref", VStr "C");
            ("alt", VStr "T"); ("INFO", VNone)]
           []).
  - discriminate.
  - assert (H : annotated answers_null_info [mock_entry; second_entry]
                  initial_world
                  [dict_merge [("chrom", VStr "1"); ("pos", VInt 1000);
                               ("ref", VStr "A"); ("alt", VStr "G")] [];
                   dict_merge [("chrom", VStr "2"); ("pos", VInt 2000);
                               ("ref", VStr "C"); ("alt", VStr "T")]
                     [("INFO", VNone)]]
                  (snd (annotate answers_null_info [mock_entry; second_entry] []
                          initial_world))).
    { eapply annotated_cons; [reflexivity | reflexivity |].
      eapply annotated_cons; [reflexivity | reflexivity |].
      exact (annotated_nil _ _). }
    exact H.
  - constructor; [reflexivity | constructor].
  - reflexivity.
Defined.



Lemma swallowed_app (net : service) (bodies1 bodies2 history : list pyval) :
  swallowed net history (bodies1 ++ bodies2)
  = (swallowed net history bodies1
     ++ swallowed net (history ++ bodies1) bodies2)%list.
Proof.
  revert history. induction bodies1 as [| body bodies1 IH]; intros history; simpl.
  - now rewrite app_nil_r.
  - rewrite IH, <- !app_assoc. reflexivity.
Qed.

Lemma swallowed_Exception (net : service) (bodies history : list pyval) :
  Forall (fun e => is_Exception e = true) (swallowed net history bodies).
Proof.
  revert history. induction bodies as [| body bodies IH]; intros history; simpl.
  - constructor.
  - apply Forall_app. split; [| apply IH].
    unfold swallowed_by. destruct (net history body) as [r | e].
    + destruct (status_code r =? 200); [| constructor].
      destruct (json r) as [v | e]; [constructor |].
      destruct (is_Exception e) eqn:E; repeat constructor. exact E.
    + destruct (is_Exception e) eqn:E; repeat constructor. exact E.
Qed.

Lemma swallow_trace (e : exn) (w : world) :
  requests (snd (swallow e w)) = requests w
  /\ stdout (snd (swallow e w))
     = (stdout w ++ map ApiError (if is_Exception e then [e] else []))%list.
Proof.
  unfold swallow. destruct (is_Exception e); simpl; split; try reflexivity.
  now rewrite app_nil_r.
Qed.

(** What one call of the client sends, and what it prints for it. *)
Lemma query_ensembl_trace (net : service) (variant : dict) (w : world) :
  exists bodies,
    requests (snd (query_ensembl net variant w)) = (requests w ++ bodies)%list
    /\ stdout (snd (query_ensembl net variant w))
       = (stdout w ++ map ApiError (swallowed net (requests w) bodies))%list.
Proof.
  unfold query_ensembl.
  destruct (spdi_notation variant) as [spdi | e].
  - exists [request_body spdi]. simpl. rewrite app_nil_r. unfold swallowed_by.
    destruct (net (requests w) (request_body spdi)) as [r | e].
    + destruct (status_code r =? 200);
        [| simpl; split; [reflexivity | now rewrite app_nil_r]].
      destruct (json r) as [v | e];
        [simpl; split; [reflexivity | now rewrite app_nil_r] |].
      exact (swallow_trace e (sent (request_body spdi) w)).
    + exact (swallow_trace e (sent (request_body spdi) w)).
  - exists []. simpl. now rewrite !app_nil_r.
Qed.

Lemma annotate_trace (net : service) (records : list VCFRecord) :
  forall (acc : list dict) (w : world),
    exists bodies,
      requests (snd (annotate net records acc w)) = (requests w ++ bodies)%list
      /\ stdout (snd (annotate net records acc w))
         = (stdout w ++ map ApiError (swallowed net (requests w) bodies))%list.
Proof.
  assert (Hnone : forall w0 : world,
             exists bodies,
               requests w0 = (requests w0 ++ bodies)%list
               /\ stdout w0
                  = (stdout w0
                     ++ map ApiError (swallowed net (requests w0) bodies))%list)
    by (intros w0; exists []; simpl; now rewrite !app_nil_r).
  induction records as [| record rest IH]; simpl; intros acc w.
  - apply Hnone.
  - destruct (parse_vcf_entry record) as [vcf_data | e]; [| apply Hnone].
    destruct (query_ensembl_trace net vcf_data w) as [bodies [Hreq Hout]].
    destruct (query_ensembl net vcf_data w) as [[ensembl_data | e] w1];
      simpl in Hreq, Hout; [| now exists bodies].
    destruct (py_merge vcf_data ensembl_data) as [combined | e];
      [| now exists bodies].
    destruct (IH (acc ++ [combined])%list w1) as [bodies' [Hreq' Hout']].
    exists (bodies ++ bodies')%list. split.
    + rewrite Hreq', Hreq, app_assoc. reflexivity.
    + rewrite Hout', Hout, Hreq, swallowed_app, map_app, app_assoc.
      reflexivity.
Qed.

(** X8.  Whatever the run does, it prints one line for each exception the
    client swallowed, in the order of the requests that met them, and
    after them the closing line exactly when it completes.  The swallowed
    exceptions are those the service's answers raise, request after
    request: an [Exception] out of the POST or out of the parsing of a 200
    response. *)
Theorem main_prints
  (net : service) (records : list VCFRecord)
  (output_csv output_pkl : string) (w : world) :
  exists bodies,
    requests (snd (main net records output_csv output_pkl w))
    = (requests w ++ bodies)%list
    /\ Forall (fun e => is_Exception e = true)
         (swallowed net (requests w) bodies)
    /\ stdout (snd (main net records output_csv output_pkl w))
       = match fst (main net records output_csv output_pkl w) with
         | Ok _ => (stdout w ++ map ApiError (swallowed net (requests w) bodies)
                    ++ [DataWritten output_csv])%list
         | Raise _ =>
             (stdout w ++ map ApiError (swallowed net (requests w) bodies))%list
         end.
Proof.
  unfold main.
  destruct (annotate_trace net records [] w) as [bodies [Hreq Hout]].
  exists bodies. split; [| split; [apply swallowed_Exception |]].
  - destruct (annotate net records [] w) as [[all_data | e] w1];
      simpl in Hreq; [| exact Hreq].
    pose proof (write_rows_frame all_data
                  (writerow header (csv_open (pickle_dump all_data w1))))
      as [_ [Hr _]].
    destruct (write_rows all_data _) as [[[] | e] w4]; simpl in *;
      now rewrite Hr.
  - destruct (annotate net records [] w) as [[all_data | e] w1];
      simpl in Hout; [| exact Hout].
    pose proof (write_rows_frame all_data
                  (writerow header (csv_open (pickle_dump all_data w1))))
      as [Ho _].
    destruct (write_rows all_data _) as [[[] | e] w4]; simpl in *.
    + now rewrite Ho, Hout, app_assoc.
    + now rewrite Ho.
Qed.

Example main_prints_garbled :
  stdout (snd (main garbled [mock_entry; second_entry] "report.csv" "report.pkl"
                 initial_world))
  = [ApiError JSONDecodeError; ApiError JSONDecodeError;
     DataWritten "report.csv"].
Proof. reflexivity. Qed.

(** ** The projection beyond percentages and the somatic flag *)

(** The gene columns of a row, for an entry that has one. *)
Lemma extract_csv_fields_gene (entry : dict) (row : list pyval) :
  extract_csv_fields entry = Ok row ->
  exists gene_effect,
    (if dict_mem "transcript_consequences" entry
        && truthy (dict_get entry "transcript_consequences" VNone)
     then
       consequence <- py_first (dict_get entry "transcript_consequences" VNone) ;;
       gene <- py_get consequence "gene_symbol" (VStr "") ;;
       terms <- py_get consequence "consequence_terms" (VList []) ;;
       variant_effect <- py_join ", " terms ;;
       Ok (gene, VStr variant_effect)
     else Ok (VStr "", VStr "")) = Ok gene_effect
    /\ nth_error row 8 = Some (fst gene_effect)
    /\ nth_error row 9 = Some (snd gene_effect)
    /\ List.length row = 14%nat.
Proof.
  unfold extract_csv_fields. cbv zeta. intros H.
  bind_ok H depth Edepth. bind_ok H alt_reads Ealt.
  bind_ok H percent_alt_reads Epa. bind_ok H percent_ref_reads Epr.
  bind_ok H gene_effect Egene. bind_ok H minor_allele Ema.
  bind_ok H minor_allele_frequency Emaf. bind_ok H found Efound.
  injection H as <-. exists gene_effect. now repeat split.
Qed.

(** X9.  Every row of a completed report has fourteen cells, as many as
    the header. *)
Theorem report_rows_have_header_width
  (net : service) (records : list VCFRecord)
  (output_csv output_pkl : string) (w w' : world) :
  main net records output_csv output_pkl w = (Ok tt, w') ->
  exists rows,
    csv_file w' = Some rows
    /\ Forall (fun row => List.length row = List.length header) rows.
Proof.
  intros H. apply main_ok in H as [entries [rows [w1 [_ [Hrows [_ Hcsv]]]]]].
  exists (header :: rows). split; [exact Hcsv |].
  constructor; [reflexivity |]. clear Hcsv.
  induction Hrows as [| entry row entries rows Hrow _ IH]; constructor.
  - now apply extract_csv_fields_gene in Hrow as (ge & _ & _ & _ & ->).
  - exact IH.
Qed.

Lemma report_rows_have_header_width_witness :
  exists rows,
    csv_file (snd (main answers_mapping [mock_entry; second_entry]
                     "report.csv" "report.pkl" initial_world)) = Some rows
    /\ Forall (fun row => List.length row = List.length header) rows.
Proof.
  exact (report_rows_have_header_width answers_mapping
           [mock_entry; second_entry] "report.csv" "report.pkl" initial_world
           _ eq_refl).
Defined.

Lemma py_first_truthy_raises (v : pyval) (e : exn) :
  truthy v = true -> py_first v = Raise e -> e = KeyError \/ e = TypeError.
Proof.
  destruct v as [| b | n | f | s | l | d]; simpl; intros Ht H;
    try discriminate;
    try (injection H as <-; now (left + right)).
  - destruct s; [discriminate Ht | discriminate H].
  - destruct l; [discriminate Ht | discriminate H].
Qed.

Lemma info_field_not_mapping (entry : dict) (k : string) (v : pyval) :
  dict_lookup "INFO" entry = Some v ->
  (forall d, v <> VDict d) ->
  info_field entry k = Raise AttributeError.
Proof.
  intros Hinfo Hv. unfold info_field, dict_mem, dict_get. rewrite Hinfo.
  destruct v; try reflexivity. now destruct (Hv d).
Qed.

(** X10.  [extract_csv_fields] raises nothing but [AttributeError],
    [TypeError], [KeyError] and [OverflowError]: its subscript is guarded
    against the empty list, so that there is no [IndexError].  An [INFO]
    that is there but is no mapping is an [AttributeError]. *)
Theorem extract_csv_fields_failures (entry : dict) :
  (forall e,
      extract_csv_fields entry = Raise e ->
      e = AttributeError \/ e = TypeError \/ e = KeyError \/ e = OverflowError)
  /\ (forall info,
         dict_lookup "INFO" entry = Some info ->
         (forall d, info <> VDict d) ->
         extract_csv_fields entry = Raise AttributeError).
Proof.
  split.
  - unfold extract_csv_fields. cbv zeta. intros e H.
    bind_raise H depth Edepth;
      [left; exact (info_field_raises _ _ _ H) |].
    bind_raise H alt_reads Ealt;
      [left; exact (info_field_raises _ _ _ H) |].
    bind_raise H percent_alt_reads Epa;
      [apply guarded_division_raises in H; destruct H; auto |].
    bind_raise H percent_ref_reads Epr;
      [apply guarded_complement_raises in H; destruct H; auto |].
    bind_raise H gene_effect Egene.
    { destruct (dict_mem "transcript_consequences" entry
                && truthy (dict_get entry "transcript_consequences" VNone))
        eqn:G; [| discriminate].
      apply andb_prop in G as [_ Ht].
      bind_raise H consequence Econsequence;
        [apply (py_first_truthy_raises _ _ Ht) in H; destruct H; auto |].
      bind_raise H gene Egene; [left; exact (py_get_raises _ _ _ _ H) |].
      bind_raise H terms Eterms; [left; exact (py_get_raises _ _ _ _ H) |].
      bind_raise H variant_effect Eve;
        [right; left; exact (py_join_raises _ _ _ H) |].
      discriminate. }
    bind_raise H minor_allele Ema;
      [left; exact (info_field_raises _ _ _ H) |].
    bind_raise H minor_allele_frequency Emaf;
      [left; exact (info_field_raises _ _ _ H) |].
    bind_raise H found Efound;
      [right; left; exact (py_in_raises _ _ _ H) |].
    discriminate.
  - intros info Hinfo Hnot. unfold extract_csv_fields. cbv zeta.
    now rewrite (info_field_not_mapping _ _ _ Hinfo Hnot).
Qed.

Lemma extract_csv_fields_failures_witness :
  extract_csv_fields entry_huge_depth = Raise OverflowError
  /\ extract_csv_fields
       [("chrom", VStr "2"); ("pos", VInt 2000); ("ref", VStr "C");
        ("alt", VStr "T"); ("INFO", VNone)] = Raise AttributeError.
Proof.
  split.
  - destruct (extract_csv_fields_failures entry_huge_depth) as [H _].
    destruct (extract_csv_fields entry_huge_depth) as [row | e] eqn:E;
      [vm_compute in E; discriminate E |].
    destruct (H e eq_refl) as [-> | [-> | [-> | ->]]];
      try (vm_compute in E; discriminate E).
    reflexivity.
  - destruct (extract_csv_fields_failures
                [("chrom", VStr "2"); ("pos", VInt 2000); ("ref", VStr "C");
                 ("alt", VStr "T"); ("INFO", VNone)]) as [_ H].
    apply (H VNone); [reflexivity | discriminate].
Defined.

Lemma all_strs_map (terms : list string) :
  all_strs (map VStr terms) = Ok terms.
Proof.
  induction terms as [| t terms IH]; simpl; [reflexivity |].
  now rewrite IH.
Qed.

(** X11.  The gene and the effect of a row come from the first transcript
    consequence alone: its [gene_symbol], and its [consequence_terms]
    joined with a comma and a space.  Both are blank when the entry has no
    consequences or an empty list of them. *)
Theorem gene_and_effect_of_first_consequence (entry : dict) (row : list pyval) :
  extract_csv_fields entry = Ok row ->
  (forall first others,
      dict_lookup "transcript_consequences" entry
      = Some (VList (VDict first :: others)) ->
      nth_error row 8 = Some (dict_get first "gene_symbol" (VStr ""))
      /\ (exists effect,
             py_join ", " (dict_get first "consequence_terms" (VList []))
             = Ok effect
             /\ nth_error row 9 = Some (VStr effect))
      /\ (forall terms,
             dict_lookup "consequence_terms" first = Some (VList (map VStr terms)) ->
             nth_error row 9 = Some (VStr (join ", " terms))))
  /\ (dict_lookup "transcript_consequences" entry = None
      \/ dict_lookup "transcript_consequences" entry = Some (VList []) ->
      nth_error row 8 = Some (VStr "") /\ nth_error row 9 = Some (VStr "")).
Proof.
  intros Hrow.
  apply extract_csv_fields_gene in Hrow as (ge & Hge & H8 & H9 & _).
  rewrite H8, H9. clear H8 H9. unfold dict_mem, dict_get in Hge.
  split.
  - intros first others Htc. rewrite Htc in Hge. cbn in Hge.
    bind_ok Hge effect Heffect. injection Hge as <-. simpl.
    split; [reflexivity |]. split; [now exists effect |].
    intros terms Hterms. unfold dict_get in Heffect. rewrite Hterms in Heffect.
    cbn [py_join] in Heffect. rewrite all_strs_map in Heffect.
    cbn [bind] in Heffect. now injection Heffect as <-.
  - intros [Htc | Htc]; rewrite Htc in Hge; cbn in Hge;
      injection Hge as <-; now split.
Qed.

Lemma gene_and_effect_of_first_consequence_witness :
  exists row,
    extract_csv_fields entry_with_consequences = Ok row
    /\ nth_error row 8 = Some (VStr "BRCA2")
    /\ nth_error row 9
       = Some (VStr "missense_variant, splice_region_variant").
Proof.
  eexists. split; [reflexivity |].
  destruct (gene_and_effect_of_first_consequence entry_with_consequences _
              eq_refl) as [H _].
  destruct (H [("gene_symbol", VStr "BRCA2");
               ("consequence_terms",
                VList [VStr "missense_variant"; VStr "splice_region_variant"])]
              [VDict [("gene_symbol", VStr "ZAR1L");
                      ("consequence_terms", VList [VStr "intron_variant"])]]
              eq_refl) as [Hgene [_ Hterms]].
  split; [exact Hgene |].
  exact (Hterms ["missense_variant"; "splice_region_variant"] eq_refl).
Defined.

(** ** The merge of a record and its annotation *)

Lemma dict_mem_In (k : string) (d : dict) :
  dict_mem k d = true <-> In k (map fst d).
Proof.
  unfold dict_mem. induction d as [| [k0 v0] d IH]; simpl.
  - split; [discriminate | contradiction].
  - destruct (String.eqb_spec k k0) as [-> | Hne].
    + split; [now left | reflexivity].
    + rewrite IH. split; [now right | intros [E | H]; [congruence | exact H]].
Qed.

Lemma dict_set_keys (d : dict) (k : string) (v : pyval) :
  map fst (dict_set d k v)
  = if dict_mem k d then map fst d else (map fst d ++ [k])%list.
Proof.
  unfold dict_mem. induction d as [| [k0 v0] d IH]; simpl.
  - reflexivity.
  - destruct (String.eqb k k0); simpl; [reflexivity |].
    rewrite IH. now destruct (dict_lookup k d).
Qed.

Lemma dict_set_unique (d : dict) (k : string) (v : pyval) :
  unique_keys d -> unique_keys (dict_set d k v).
Proof.
  unfold unique_keys. intros Hd. rewrite dict_set_keys.
  destruct (dict_mem k d) eqn:E; [exact Hd |].
  apply NoDup_app; [exact Hd | repeat constructor; intros [] |].
  intros a Ha [<- | []].
  apply dict_mem_In in Ha. congruence.
Qed.

Lemma dict_merge_unique (b a : dict) :
  unique_keys a -> unique_keys (dict_merge a b).
Proof.
  revert a. induction b as [| [k v] b IH]; intros a Ha.
  - exact Ha.
  - rewrite dict_merge_cons. apply IH. now apply dict_set_unique.
Qed.

(** The keys of the left mapping keep their places; the new keys of the
    right one follow. *)
Lemma dict_merge_keys (b a : dict) :
  exists extra,
    map fst (dict_merge a b) = (map fst a ++ extra)%list
    /\ forall k, In k extra -> In k (map fst b).
Proof.
  revert a. induction b as [| [k v] b IH]; intros a.
  - exists []. split; [now rewrite app_nil_r | contradiction].
  - rewrite dict_merge_cons.
    destruct (IH (dict_set a k v)) as [extra [Hkeys Hextra]].
    rewrite dict_set_keys in Hkeys. destruct (dict_mem k a).
    + exists extra. split; [exact Hkeys |].
      intros k' Hk'. right. now apply Hextra.
    + exists (k :: extra). split; [now rewrite Hkeys, <- app_assoc |].
      intros k' [<- | Hk']; [now left | right; now apply Hextra].
Qed.

Lemma dict_get_merge (a b : dict) (k : string) (default : pyval) :
  unique_keys b ->
  dict_get (dict_merge a b) k default = dict_get b k (dict_get a k default).
Proof.
  intros Hb. unfold dict_get. destruct (dict_lookup k b) as [v |] eqn:E.
  - now rewrite (dict_lookup_merge _ _ _ a Hb E).
  - now rewrite (dict_lookup_merge_none _ _ a E).
Qed.

Lemma parsed_unique (record : VCFRecord) (variant : dict) :
  parse_vcf_entry record = Ok variant ->
  unique_keys variant /\ map fst variant = ["chrom"; "pos"; "ref"; "alt"].
Proof.
  intros H. apply parse_vcf_entry_ok in H as [alt [others [_ ->]]].
  split; [| reflexivity]. unfold unique_keys. simpl.
  repeat constructor; simpl; intuition discriminate.
Qed.

(** X12.  Every entry of the dump is a mapping without a repeated key
    that starts with [chrom], [pos], [ref] and [alt] in this order, whatever
    the service answered: the keys of the annotation that are new come
    after them. *)
Theorem dumped_entries_are_variants_first
  (net : service) (records : list VCFRecord)
  (output_csv output_pkl : string) (w w' : world) (entries : list dict) :
  main net records output_csv output_pkl w = (Ok tt, w') ->
  pkl_file w' = Some entries ->
  Forall (fun entry =>
            unique_keys entry
            /\ firstn 4 (map fst entry) = ["chrom"; "pos"; "ref"; "alt"])
    entries.
Proof.
  intros H Hpkl.
  apply main_ok in H as [entries' [rows [w1 [Hann [_ [Hpkl' _]]]]]].
  assert (entries' = entries) as -> by congruence. clear Hpkl Hpkl'.
  induction Hann as [w | record rest vcf_data d w w1' w2 entries Hparse Hq _ IH];
    constructor; [| exact IH].
  destruct (parsed_unique _ _ Hparse) as [Hunique Hkeys]. split.
  - now apply dict_merge_unique.
  - destruct (dict_merge_keys d vcf_data) as [extra [-> _]].
    rewrite Hkeys. reflexivity.
Qed.

Lemma dumped_entries_are_variants_first_witness :
  Forall (fun entry =>
            unique_keys entry
            /\ firstn 4 (map fst entry) = ["chrom"; "pos"; "ref"; "alt"])
    [[("chrom", VStr "chr1"); ("pos", VInt 1000); ("ref", VStr "A");
      ("alt", VStr "G"); ("id", VStr "COSV57")]].
Proof.
  exact (dumped_entries_are_variants_first answers_mapping [mock_entry]
           "report.csv" "report.pkl" initial_world _ _ eq_refl eq_refl).
Defined.

(** X13.  The first four cells of the row of a merged entry are the
    record's [CHROM], [POS], [REF] and first alternate allele, each
    replaced by the annotation's value of the same name when the
    annotation has one. *)
Theorem row_of_merged_entry
  (record : VCFRecord) (vcf_data ensembl_data : dict) (row : list pyval) :
  parse_vcf_entry record = Ok vcf_data ->
  unique_keys ensembl_data ->
  extract_csv_fields (dict_merge vcf_data ensembl_data) = Ok row ->
  nth_error row 0 = Some (dict_get ensembl_data "chrom" (VStr (CHROM record)))
  /\ nth_error row 1 = Some (dict_get ensembl_data "pos" (VInt (POS record)))
  /\ nth_error row 2 = Some (dict_get ensembl_data "ref" (VStr (REF record)))
  /\ nth_error row 3
     = Some (dict_get ensembl_data "alt" (VStr (hd "" (ALT record)))).
Proof.
  intros Hparse Hunique Hrow.
  apply parse_vcf_entry_ok in Hparse as [alt [others [Halt ->]]].
  apply extract_csv_fields_ok in Hrow
    as (depth & alt_reads & pa & pr & ge & ma & maf & found
        & _ & _ & _ & _ & _ & ->).
  cbn [nth_error]. rewrite !(dict_get_merge _ _ _ _ Hunique), Halt.
  now repeat split.
Qed.

Lemma row_of_merged_entry_witness :
  exists row,
    extract_csv_fields
      (dict_merge [("chrom", VStr "1"); ("pos", VInt 1000); ("ref", VStr "A");
                   ("alt", VStr "G")]
         [("id", VStr "COSV57"); ("chrom", VStr "chr1")]) = Ok row
    /\ nth_error row 0 = Some (VStr "chr1")
    /\ nth_error row 1 = Some (VInt 1000)
    /\ nth_error row 2 = Some (VStr "A")
    /\ nth_error row 3 = Some (VStr "G").
Proof.
  eexists. split; [reflexivity |].
  apply (row_of_merged_entry mock_entry
           [("chrom", VStr "1"); ("pos", VInt 1000); ("ref", VStr "A");
            ("alt", VStr "G")]
           [("id", VStr "COSV57"); ("chrom", VStr "chr1")]).
  - reflexivity.
  - unfold unique_keys. simpl. repeat constructor; simpl; intuition discriminate.
  - reflexivity.
Defined.

(** ** [write_to_csv] *)

Lemma dict_to_list_known (rowdict : dict) :
  wrong_fields rowdict = [] -> dict_to_list rowdict = inr (cells_by_name rowdict).
Proof. unfold dict_to_list. now intros ->. Qed.

Lemma dict_to_list_unknown (rowdict : dict) :
  wrong_fields rowdict <> [] -> dict_to_list rowdict = inl (wrong_fields rowdict).
Proof.
  unfold dict_to_list. destruct (wrong_fields rowdict); [intros H; now destruct H |].
  reflexivity.
Qed.

Lemma write_dict_rows_known (data : list dict) :
  Forall (fun rowdict => wrong_fields rowdict = []) data ->
  forall w rows0,
    csv_file w = Some rows0 ->
    exists w',
      write_dict_rows data w = (Written, w')
      /\ csv_file w' = Some (rows0 ++ map cells_by_name data)%list
      /\ pkl_file w' = pkl_file w.
Proof.
  induction 1 as [| rowdict data Hrow _ IH]; intros w rows0 Hcsv; simpl.
  - exists w. now rewrite app_nil_r.
  - rewrite (dict_to_list_known _ Hrow).
    destruct (IH (writerow (cells_by_name rowdict) w)
                (rows0 ++ [cells_by_name rowdict])%list)
      as [w' [Hrun [Hcsv' Hpkl]]].
    + simpl. now rewrite Hcsv.
    + exists w'. split; [exact Hrun |]. split; [| exact Hpkl].
      now rewrite Hcsv', <- app_assoc.
Qed.



Lemma write_dict_rows_unknown
  (before : list dict) (rowdict : dict) (after : list dict) :
  Forall (fun rowdict => wrong_fields rowdict = []) before ->
  wrong_fields rowdict <> [] ->
  forall w rows0,
    csv_file w = Some rows0 ->
    exists w',
      write_dict_rows (before ++ rowdict :: after) w
      = (RaisesValueError (wrong_fields rowdict), w')
      /\ csv_file w' = Some (rows0 ++ map cells_by_name before)%list.
Proof.
  intros Hbefore Hrow.
  induction Hbefore as [| r before Hr _ IH]; intros w rows0 Hcsv; simpl.
  - rewrite (dict_to_list_unknown _ Hrow). exists w. now rewrite app_nil_r.
  - rewrite (dict_to_list_known _ Hr).
    destruct (IH (writerow (cells_by_name r) w) (rows0 ++ [cells_by_name r])%list)
      as [w' [Hrun Hcsv']].
    + simpl. now rewrite Hcsv.
    + exists w'. split; [exact Hrun |]. now rewrite Hcsv', <- app_assoc.
Qed.

(** X15.  The first row with a key that is no column makes [write_to_csv]
    raise [ValueError] with the offending keys.  The report then holds the
    header and the rows before that one. *)
Theorem write_to_csv_unknown_column
  (before : list dict) (rowdict : dict) (after : list dict)
  (filename : string) (w : world) :
  Forall (fun rowdict => wrong_fields rowdict = []) before ->
  wrong_fields rowdict <> [] ->
  exists w',
    write_to_csv (before ++ rowdict :: after) filename w
    = (RaisesValueError (wrong_fields rowdict), w')
    /\ csv_file w'
       = Some (map VStr fieldnames
               :: map (fun rowdict =>
                         map (fun key => dict_get rowdict key (VStr ""))
                           fieldnames)
                    before).
Proof.
  intros Hbefore Hrow. unfold write_to_csv.
  exact (write_dict_rows_unknown before rowdict after Hbefore Hrow
           (writerow (map VStr fieldnames) (csv_open w))
           [map VStr fieldnames] eq_refl).
Qed.

Lemma write_to_csv_unknown_column_witness :
  exists w',
    write_to_csv [entry_somatic; entry_with_consequences; entry_somatic]
      "report.csv" initial_world
    = (RaisesValueError ["transcript_consequences"], w')
    /\ csv_file w'
       = Some [map VStr fieldnames;
               [VStr "1"; VStr ""; VStr ""; VStr ""; VStr ""; VStr ""; VStr "";
                VStr ""; VStr ""; VStr ""; VStr ""; VStr ""; VStr "";
                VStr "rs1,COSV57"]].
Proof.
  apply (write_to_csv_unknown_column [entry_somatic] entry_with_consequences
           [entry_somatic] "report.csv" initial_world).
  - repeat constructor.
  - discriminate.
Defined.

Lemma parsed_two_ways (record : VCFRecord) (variant : dict) :
  parse_vcf_entry record = Ok variant ->
  wrong_fields variant = []
  /\ extract_csv_fields variant = Ok (cells_by_name variant).
Proof.
  intros H. apply parse_vcf_entry_ok in H as [alt [others [_ ->]]].
  split; reflexivity.
Qed.

(** X16.  On entries that are bare variants, with nothing merged into
    them, [write_to_csv] writes the very report that the loop of [main]
    writes with [extract_csv_fields]. *)
Theorem write_to_csv_agrees_on_bare_variants
  (records : list VCFRecord) (entries : list dict)
  (filename : string) (w : world) :
  Forall2 (fun record entry => parse_vcf_entry record = Ok entry)
    records entries ->
  exists w1 w2,
    write_to_csv entries filename w = (Written, w1)
    /\ write_rows entries (writerow header (csv_open w)) = (Ok tt, w2)
    /\ csv_file w1 = csv_file w2.
Proof.
  intros Hparsed.
  assert (Hknown : Forall (fun rowdict => wrong_fields rowdict = []) entries).
  { clear w. induction Hparsed as [| record entry records entries H _ IH];
      constructor; [exact (proj1 (parsed_two_ways _ _ H)) | exact IH]. }
  assert (Hrows : Forall2 (fun entry row => extract_csv_fields entry = Ok row)
                    entries (map cells_by_name entries)).
  { clear w Hknown. induction Hparsed as [| record entry records entries H _ IH];
      simpl; constructor; [exact (proj2 (parsed_two_ways _ _ H)) | exact IH]. }
  destruct (write_dict_rows_known entries Hknown
              (writerow (map VStr fieldnames) (csv_open w))
              [map VStr fieldnames] eq_refl) as [w1 [Hrun1 [Hcsv1 _]]].
  destruct (write_rows_total entries (parsed_rows _ _ Hparsed)
              (writerow header (csv_open w))) as [w2 Hrun2].
  exists w1, w2. split; [exact Hrun1 |]. split; [exact Hrun2 |].
  apply write_rows_ok in Hrun2 as [rows [Hrows2 [_ [_ Hcsv2]]]].
  rewrite Hcsv1, (Hcsv2 [header] eq_refl).
  assert (rows = map cells_by_name entries) as ->; [| reflexivity].
  clear Hcsv2 Hcsv1 Hrun1 Hknown Hparsed. revert rows Hrows2.
  induction Hrows as [| entry row entries rows' Hrow _ IH];
    intros rows Hrows2; inversion Hrows2; subst; [reflexivity |].
  f_equal; [congruence | now apply IH].
Qed.

Lemma write_to_csv_agrees_on_bare_variants_witness :
  exists w1 w2,
    write_to_csv
      [[("chrom", VStr "1"); ("pos", VInt 1000); ("ref", VStr "A");
        ("alt", VStr "G")]] "report.csv" initial_world = (Written, w1)
    /\ write_rows
         [[("chrom", VStr "1"); ("pos", VInt 1000); ("ref", VStr "A");
           ("alt", VStr "G")]]
         (writerow header (csv_open initial_world)) = (Ok tt, w2)
    /\ csv_file w1 = csv_file w2.
Proof.
  apply (write_to_csv_agrees_on_bare_variants [mock_entry]).
  repeat constructor.
Defined.
